(** * Snorkel intro tutorial, part II: candidate extraction

    A shallow embedding of the code authored in
    [tutorials/intro/Intro_Tutorial_2.ipynb]: the helper [number_of_people],
    the loop that partitions the sentences of the corpus into the train, dev
    and test sets, and the order of the framework calls of the notebook. *)

From Stdlib Require Import ZArith Lia.
From stdpp Require Import base decidable countable list strings gmap sets.

Local Open Scope Z_scope.

(** * Data model *)

(** A [Sentence] of the corpus, as far as the notebook reads it.  The
    framework's objects are compared and hashed by identity, and a session
    holds one object per row of the sentence table: [sentence_id] is that
    identity, [ner_tags] the list of named-entity tags, one per token. *)
Record Sentence : Type := mkSentence {
  sentence_id : positive;
  ner_tags : list string
}.

(** A [Document]: its [name] (the key of [order_by(Document.name)]) and the
    list [doc.sentences]. *)
Record Document : Type := mkDocument {
  name : string;
  sentences : list Sentence
}.

#[global] Instance Sentence_eq_dec : EqDecision Sentence.
Proof. solve_decision. Defined.

#[global] Instance Sentence_countable : Countable Sentence.
Proof.
  refine (inj_countable' (fun s => (sentence_id s, ner_tags s))
                         (fun p => mkSentence p.1 p.2) _).
  intros []; reflexivity.
Defined.

(** * The helper [number_of_people] *)

Definition PERSON : string := "PERSON".

(** The test [tag == 'PERSON']. *)
Definition is_person (tag : string) : bool := bool_decide (tag = PERSON).

(** The two locals of the function: [active_sequence] and [count]. *)
Record CountState : Type := mkCountState {
  active_sequence : bool;
  count : Z
}.

(** One iteration of [for tag in sentence.ner_tags]. *)
Definition count_step (st : CountState) (tag : string) : CountState :=
  if is_person tag && negb (active_sequence st) then
    {| active_sequence := true; count := count st + 1 |}
  else if negb (is_person tag) && active_sequence st then
    {| active_sequence := false; count := count st |}
  else st.

(** The loop, from an arbitrary state of the locals. *)
Definition count_loop (st : CountState) (tags : list string) : CountState :=
  foldl count_step st tags.

Definition number_of_people (sentence : Sentence) : Z :=
  count (count_loop {| active_sequence := false; count := 0 |}
                    (ner_tags sentence)).

(** * Maximal runs of ['PERSON'], after the words of the specification *)

(** [maximal_run tags i j]: the positions [i, j) of [tags] are a non-empty
    block of ['PERSON'] tags that can be extended neither to the left nor to
    the right. *)
Definition maximal_run (tags : list string) (i j : nat) : Prop :=
  (i < j)%nat ∧
  (∀ k, (i ≤ k < j)%nat → tags !! k = Some PERSON) ∧
  (i = 0%nat ∨ tags !! (i - 1)%nat ≠ Some PERSON) ∧
  tags !! j ≠ Some PERSON.

Definition tag_is_person (tags : list string) (k : nat) : bool :=
  match tags !! k with
  | Some t => is_person t
  | None => false
  end.

(** The same, as a test. *)
Definition maximal_runb (tags : list string) (r : nat * nat) : bool :=
  (r.1 <? r.2)%nat
  && forallb (tag_is_person tags) (seq r.1 (r.2 - r.1))
  && ((r.1 =? 0)%nat || negb (tag_is_person tags (r.1 - 1)))
  && negb (tag_is_person tags r.2).

(** All maximal runs of a tag list: the pairs [(i, j)] of positions up to its
    length that pass the test. *)
Definition maximal_runs (tags : list string) : list (nat * nat) :=
  List.filter (maximal_runb tags)
    (list_prod (seq 0 (S (length tags))) (seq 0 (S (length tags)))).

(** The number of entries equal to ['PERSON']. *)
Definition person_tags (tags : list string) : Z :=
  Z.of_nat (length (List.filter is_person tags)).

(** * An enumeration of the maximal runs by recursion on the tags *)

(** A run of the tail, seen from the whole list. *)
Definition shift_run (r : nat * nat) : nat * nat := (S r.1, S r.2).

(** The first run of the tail starts at its first tag: a ['PERSON'] in front
    prolongs it to the left. *)
Definition extend_first (rs : list (nat * nat)) : list (nat * nat) :=
  match rs with
  | r :: rs' => (0%nat, r.2) :: rs'
  | [] => []
  end.

Fixpoint run_list (tags : list string) : list (nat * nat) :=
  match tags with
  | [] => []
  | t :: l =>
      let rs := shift_run <$> run_list l in
      if is_person t then
        if tag_is_person l 0 then extend_first rs else (0%nat, 1%nat) :: rs
      else rs
  end.

(** * Python arithmetic used by the splitting loop *)

(** The exceptions the authored statements could raise: indexing a tuple out
    of range, converting an integer too large for a float, and iterating
    over a value that is not iterable. *)
Inductive exn : Type := IndexError | OverflowError | TypeError.

(** The outcome of running a statement: it completes with a value or raises. *)
Inductive outcome (A : Type) : Type :=
  | Return : A → outcome A
  | Raised : exn → outcome A.
Arguments Return {A} _.
Arguments Raised {A} _.

#[global] Instance outcome_ret : MRet outcome := @Return.
#[global] Instance outcome_bind : MBind outcome := λ A B k m,
  match m with
  | Return a => k a
  | Raised e => Raised e
  end.

(** A finite binary64 number, of value [fmant * 2 ^ fexp]. *)
Record float : Type := mkFloat {
  fmant : Z;
  fexp : Z
}.

(** Rounding of [m * 2 ^ e] to the 53 bits of precision of a binary64
    significand, to nearest and to even on a tie. *)
Definition round_nearest_even (m e : Z) : float :=
  let a := Z.abs m in
  let k := Z.log2 a - 52 in
  if k <=? 0 then mkFloat m e
  else
    let q := Z.shiftr a k in
    let r := Z.land a (Z.ones k) in
    let half := 2 ^ (k - 1) in
    let q' := if (half <? r) || ((r =? half) && Z.odd q) then q + 1 else q in
    mkFloat (Z.sgn m * q') (e + k).

(** [float(n)] for a Python integer [n]: the nearest binary64 number, and
    [OverflowError] when that is not finite (from [2 ^ 1024] on). *)
Definition float_of_int (n : Z) : outcome float :=
  let f := round_nearest_even n 0 in
  if 2 ^ 1024 <=? Z.abs (fmant f) * 2 ^ fexp f then Raised OverflowError
  else Return f.

(** The product [x * y] of two binary64 numbers.  The loop multiplies a
    constant between 0.8 and 0.95 by a finite [float(ld)]: the product stays
    in the normal range and only its significand is rounded. *)
Definition float_mul (x y : float) : float :=
  round_nearest_even (fmant x * fmant y) (fexp x + fexp y).

(** [x * n] with [x] a float and [n] an integer: Python converts [n] first. *)
Definition float_mul_int (x : float) (n : Z) : outcome float :=
  y ← float_of_int n; mret (float_mul x y).

(** [i < x] with [i] an integer and [x] a float: Python compares the two
    exact values. *)
Definition int_lt_float (i : Z) (x : float) : bool :=
  if 0 <=? fexp x then i <? fmant x * 2 ^ fexp x
  else i * 2 ^ (- fexp x) <? fmant x.

(** The literals [0.8], [0.9] and [0.95] as binary64 numbers. *)
Definition float_0_8 : float := mkFloat 7205759403792794 (-53).
Definition float_0_9 : float := mkFloat 8106479329266893 (-53).
Definition float_0_95 : float := mkFloat 8556839292003942 (-53).

(** [t[k]] for a tuple [t], [IndexError] out of range (negative indices,
    which count from the end, are not used by the notebook). *)
Definition tuple_get {A : Type} (t : list A) (k : nat) : outcome A :=
  match t !! k with
  | Some x => Return x
  | None => Raised IndexError
  end.

(** * [number_of_people] on the values of Python *)

(** The values an attribute such as [sentence.ner_tags] can hold: [None]
    (a column that is not set), an integer, a string, or a list. *)
#[warnings="-register-all"] Inductive pyvalue : Type :=
  | PyNone
  | PyInt (n : Z)
  | PyStr (s : string)
  | PyList (items : list pyvalue).

(** The characters of a string, each a string of length one. *)
Fixpoint string_chars (s : string) : list pyvalue :=
  match s with
  | EmptyString => []
  | String a s' => PyStr (String a EmptyString) :: string_chars s'
  end.

(** What [for tag in v] iterates over: the items of a list, the characters
    of a string, and [TypeError] for a value that is not iterable. *)
Definition py_iter (v : pyvalue) : outcome (list pyvalue) :=
  match v with
  | PyList items => Return items
  | PyStr s => Return (string_chars s)
  | PyNone | PyInt _ => Raised TypeError
  end.

(** [v == s] for a string literal [s]: false for a value of another type,
    and never an exception. *)
Definition py_eq_str (v : pyvalue) (s : string) : bool :=
  match v with
  | PyStr s' => bool_decide (s' = s)
  | _ => false
  end.

(** One iteration of the loop of [number_of_people], on any value. *)
Definition count_step_py (st : CountState) (tag : pyvalue) : CountState :=
  if py_eq_str tag PERSON && negb (active_sequence st) then
    {| active_sequence := true; count := count st + 1 |}
  else if negb (py_eq_str tag PERSON) && active_sequence st then
    {| active_sequence := false; count := count st |}
  else st.

(** [number_of_people], given the value of [sentence.ner_tags]. *)
Definition number_of_people_py (ner_tags : pyvalue) : outcome Z :=
  tags ← py_iter ner_tags;
  mret (count (foldl count_step_py
                 {| active_sequence := false; count := 0 |} tags)).

(** A list of tag strings as a value. *)
Definition py_tags (tags : list string) : pyvalue := PyList (PyStr <$> tags).

(** * The splitting loop *)

(** [os.environ]. *)
Abbreviation environ := (gmap string string).

(** ['CI' in os.environ]. *)
Definition in_CI (env : environ) : bool := bool_decide (is_Some (env !! "CI")).

(** [splits = (0.8, 0.9) if 'CI' in os.environ else (0.9, 0.95)]. *)
Definition splits_of (env : environ) : list float :=
  if in_CI env then [float_0_8; float_0_9] else [float_0_9; float_0_95].

(** The three sets the loop fills. *)
Record SplitState : Type := mkSplitState {
  train_sents : gset Sentence;
  dev_sents : gset Sentence;
  test_sents : gset Sentence
}.

Definition empty_split : SplitState :=
  {| train_sents := ∅; dev_sents := ∅; test_sents := ∅ |}.

(** A [for] loop whose body may raise: the first exception ends it. *)
Fixpoint for_each {A S : Type} (body : S → A → outcome S) (l : list A)
    (st : S) : outcome S :=
  match l with
  | [] => Return st
  | x :: l' => st' ← body st x; for_each body l' st'
  end.

(** The expression [splits[k] * ld]. *)
Definition threshold (splits : list float) (k : nat) (ld : Z)
    : outcome float :=
  c ← tuple_get splits k; float_mul_int c ld.

(** The three splits; the notebook numbers them 0, 1 and 2. *)
Inductive split_name : Type := Train | Dev | Test.

#[global] Instance split_name_eq_dec : EqDecision split_name.
Proof. solve_decision. Defined.

(** The set of a split. *)
Definition split_set (w : split_name) (st : SplitState) : gset Sentence :=
  match w with
  | Train => train_sents st
  | Dev => dev_sents st
  | Test => test_sents st
  end.

(** [train_sents.add(s)], [dev_sents.add(s)] and [test_sents.add(s)]. *)
Definition add_to (w : split_name) (s : Sentence) (st : SplitState)
    : SplitState :=
  match w with
  | Train => {| train_sents := train_sents st ∪ {[ s ]};
                dev_sents := dev_sents st;
                test_sents := test_sents st |}
  | Dev => {| train_sents := train_sents st;
              dev_sents := dev_sents st ∪ {[ s ]};
              test_sents := test_sents st |}
  | Test => {| train_sents := train_sents st;
               dev_sents := dev_sents st;
               test_sents := test_sents st ∪ {[ s ]} |}
  end.

(** The body of [for s in doc.sentences]. *)
Definition split_sentence (splits : list float) (ld i : Z) (st : SplitState)
    (s : Sentence) : outcome SplitState :=
  if number_of_people s <? 5 then
    t0 ← threshold splits 0 ld;
    if int_lt_float i t0 then Return (add_to Train s st)
    else
      t1 ← threshold splits 1 ld;
      if int_lt_float i t1 then Return (add_to Dev s st)
      else Return (add_to Test s st)
  else Return st.

(** [enumerate(docs)], counting from [start]. *)
Fixpoint enumerate_from {A : Type} (start : Z) (l : list A) : list (Z * A) :=
  match l with
  | [] => []
  | x :: l' => (start, x) :: enumerate_from (start + 1) l'
  end.

Definition enumerate {A : Type} (l : list A) : list (Z * A) :=
  enumerate_from 0 l.

(** The body of [for i, doc in enumerate(docs)]. *)
Definition split_document (splits : list float) (ld : Z) (st : SplitState)
    (idoc : Z * Document) : outcome SplitState :=
  for_each (split_sentence splits ld idoc.1) (sentences idoc.2) st.

(** The cell as a whole, from the environment and the name-ordered list that
    the query for the documents returned. *)
Definition split_corpus (env : environ) (docs : list Document)
    : outcome SplitState :=
  let ld := Z.of_nat (length docs) in
  let splits := splits_of env in
  for_each (split_document splits ld) (enumerate docs) empty_split.

(** The largest length of a Python list ([sys.maxsize]). *)
Definition PY_SSIZE_T_MAX : Z := 2 ^ 63 - 1.

(** The split that the tests [i < t0] and [i < t1] choose for a sentence of
    the document of index [i], given the values [t0] and [t1] of the two
    thresholds. *)
Definition assigned (t0 t1 : float) (i : Z) : split_name :=
  if int_lt_float i t0 then Train
  else if int_lt_float i t1 then Dev
  else Test.

(** The effect of the loop body once the thresholds are known. *)
Definition place (t0 t1 : float) (i : Z) (st : SplitState) (s : Sentence)
    : SplitState :=
  if number_of_people s <? 5 then add_to (assigned t0 t1 i) s st else st.

(** The effect of the body of the outer loop. *)
Definition place_document (t0 t1 : float) (st : SplitState)
    (idoc : Z * Document) : SplitState :=
  foldl (place t0 t1 idoc.1) st (sentences idoc.2).

(** * The thresholds in exact arithmetic *)

(** The fractions that the entries of [splits] are written for: 80 % and
    90 % of the documents within the automated tests, 90 % and 95 %
    otherwise, as pairs of a numerator and a denominator. *)
Definition split_fractions (env : environ) : (Z * Z) * (Z * Z) :=
  if in_CI env then ((4, 5), (9, 10)) else ((9, 10), (19, 20)).

(** [before f i ld]: the index [i] is below the fraction [f] of [ld], with
    no rounding. *)
Definition before (f : Z * Z) (i ld : Z) : Prop := f.2 * i < f.1 * ld.

(** * Sample data *)

Definition example_sentence (id : positive) (tags : list string) : Sentence :=
  {| sentence_id := id; ner_tags := tags |}.

(** Ten documents; the sentence of the second one mentions five people. *)
Definition example_docs : list Document :=
  [ {| name := "a"; sentences :=
         [example_sentence 1 ["PERSON"; "O"; "PERSON"];
          example_sentence 2 ["O"]] |};
    {| name := "b"; sentences :=
         [example_sentence 3
            ["PERSON"; "O"; "PERSON"; "O"; "PERSON"; "O"; "PERSON"; "O";
             "PERSON"]] |};
    {| name := "c"; sentences := [example_sentence 4 ["PERSON"; "PERSON"]] |};
    {| name := "d"; sentences := [] |};
    {| name := "e"; sentences := [example_sentence 5 []] |};
    {| name := "f"; sentences := [example_sentence 6 ["O"]] |};
    {| name := "g"; sentences := [example_sentence 7 ["O"]] |};
    {| name := "h"; sentences := [example_sentence 8 ["O"]] |};
    {| name := "i"; sentences := [example_sentence 9 ["O"]] |};
    {| name := "j"; sentences := [example_sentence 10 ["O"; "PERSON"]] |}
  ]%string.

(** The identities of the sentences of the three sets, when the loop
    completes. *)
Definition split_ids (o : outcome SplitState)
    : option (list positive * list positive * list positive) :=
  match o with
  | Return st =>
      Some (sentence_id <$> elements (train_sents st),
            sentence_id <$> elements (dev_sents st),
            sentence_id <$> elements (test_sents st))
  | Raised _ => None
  end.

(** Ten documents, the first and the last of which hold the same sentence. *)
Definition shared_docs : list Document :=
  ({| name := "a"; sentences := [example_sentence 1 ["O"]] |}
   :: replicate 8 {| name := "b"; sentences := [] |}
   ++ [ {| name := "c"; sentences := [example_sentence 1 ["O"]] |} ])%string.

(** Three documents with sentences of their own. *)
Definition three_docs : list Document :=
  [ {| name := "a"; sentences :=
         [example_sentence 1 ["PERSON"]; example_sentence 2 []] |};
    {| name := "b"; sentences := [] |};
    {| name := "c"; sentences := [example_sentence 3 ["O"]] |} ]%string.

(** An environment of the automated tests, and one without ['CI']. *)
Definition ci_environ : environ := {[ "CI"%string := "true"%string ]}.
Definition user_environ : environ := {[ "HOME"%string := "/root"%string ]}.

(** * The notebook as a script of framework calls *)

(** The calls the code cells make, the cell that defines [number_of_people]
    apart (it calls nothing). *)
Inductive call : Type :=
  | SnorkelSession_new
  | candidate_subclass_Spouse
  | Ngrams_new
  | PersonMatcher_new
  | CandidateExtractor_new
  | query_Document_all
  | split_loop
  | cand_extractor_apply (split : Z)
  | query_Spouse_all (split : Z)
  | SentenceNgramViewer_new
  | viewer_render
  | viewer_get_selected
  | candidate_person1
  | candidate_get_contexts
  | context_get_parent
  | span_get_span
  | span_get_attrib_tokens
  | query_Spouse_count (split : Z).

(** The code cells from top to bottom; the viewer is opened and used only
    when ['CI' not in os.environ]. *)
Definition cell_session : list call := [SnorkelSession_new].
Definition cell_schema : list call := [candidate_subclass_Spouse].
Definition cell_extractor : list call :=
  [Ngrams_new; PersonMatcher_new; CandidateExtractor_new].
Definition cell_split : list call := [query_Document_all; split_loop].
Definition cell_apply_train : list call := [cand_extractor_apply 0].
Definition cell_train_cands : list call := [query_Spouse_all 0].
Definition cell_viewer (env : environ) : list call :=
  if negb (in_CI env) then [SentenceNgramViewer_new] else [].
(** The cell [sv]: the viewer is displayed, and nothing is when [sv] is
    [None]. *)
Definition cell_render (env : environ) : list call :=
  if negb (in_CI env) then [viewer_render] else [].
Definition cell_selected (env : environ) : list call :=
  if negb (in_CI env) then [viewer_get_selected] else [].
Definition cell_person1 : list call := [candidate_person1].
Definition cell_contexts : list call := [candidate_get_contexts].
Definition cell_parents : list call :=
  [candidate_get_contexts; context_get_parent; context_get_parent;
   context_get_parent].
Definition cell_tokens : list call :=
  [span_get_span; span_get_attrib_tokens; span_get_attrib_tokens].
(** [for i, sents in enumerate([dev_sents, test_sents])]. *)
Definition cell_dev_test : list call :=
  flat_map (λ i, [cand_extractor_apply (i + 1); query_Spouse_count (i + 1)])
           [0; 1].

(** Running the notebook from top to bottom. *)
Definition notebook (env : environ) : list call :=
  cell_session ++ cell_schema ++ cell_extractor ++ cell_split
  ++ cell_apply_train ++ cell_train_cands ++ cell_viewer env ++ cell_render env
  ++ cell_selected env ++ cell_person1 ++ cell_contexts ++ cell_parents
  ++ cell_tokens ++ cell_dev_test.

(** The six steps of the specification's overview. *)
Inductive step : Type :=
  | OpenSession
  | DefineCandidateSchema
  | ConfigureExtractor
  | SplitCorpus
  | RunExtraction
  | InspectResults.

#[global] Instance step_eq_dec : EqDecision step.
Proof. solve_decision. Defined.

(** The position of a step in the overview. *)
Definition step_rank (s : step) : nat :=
  match s with
  | OpenSession => 0
  | DefineCandidateSchema => 1
  | ConfigureExtractor => 2
  | SplitCorpus => 3
  | RunExtraction => 4
  | InspectResults => 5
  end.

Definition all_steps : list step :=
  [OpenSession; DefineCandidateSchema; ConfigureExtractor; SplitCorpus;
   RunExtraction; InspectResults].

(** The step a call belongs to. *)
Definition step_of (c : call) : step :=
  match c with
  | SnorkelSession_new => OpenSession
  | candidate_subclass_Spouse => DefineCandidateSchema
  | Ngrams_new | PersonMatcher_new | CandidateExtractor_new =>
      ConfigureExtractor
  | query_Document_all | split_loop => SplitCorpus
  | cand_extractor_apply _ => RunExtraction
  | query_Spouse_all _ | SentenceNgramViewer_new | viewer_render
  | viewer_get_selected | candidate_person1 | candidate_get_contexts
  | context_get_parent | span_get_span | span_get_attrib_tokens
  | query_Spouse_count _ => InspectResults
  end.

(** The steps of a run, one per call. *)
Definition steps_of_run (env : environ) : list step :=
  step_of <$> notebook env.

(** A run is in order when each of its steps has rank at most [seen], the
    number of steps of the overview begun so far: a step is met only once
    every step before it has been. *)
Fixpoint in_order (seen : nat) (run : list step) : bool :=
  match run with
  | [] => true
  | s :: run' =>
      (step_rank s <=? seen)%nat && in_order (seen `max` S (step_rank s)) run'
  end.

(** The run with its repetitions of a step in a row merged. *)
Fixpoint merge_repeats (run : list step) : list step :=
  match run with
  | [] => []
  | s :: run' =>
      match run' with
      | s' :: _ => if decide (s = s') then merge_repeats run'
                   else s :: merge_repeats run'
      | [] => [s]
      end
  end.

(** One fixed order: no step of the run comes after a step that follows it
    in the overview. *)
Definition in_fixed_order (run : list step) : Prop :=
  ∀ (m n : nat) s s',
    (m < n)%nat → run !! m = Some s → run !! n = Some s' →
    (step_rank s ≤ step_rank s')%nat.

(** * The context hierarchy of the framework *)

Module ContextHierarchy.

(** Modelled from the spec: the framework's context classes ([Document],
    [Sentence], [Span], [Candidate] of [snorkel.models]) and their methods
    [get_parent], [get_children] and [get_contexts] are not among the
    sources.  The hierarchy is the containment relation
    Document → Sentence → Span: every context below a document holds the
    key of the context that contains it, and the children of a context are
    the contexts that hold its key. *)
Record document_row : Type := mkDocumentRow {
  document_id : Z;
  document_name : string
}.

Record sentence_row : Type := mkSentenceRow {
  sentence_key : Z;
  sentence_document_id : Z;
  sentence_position : Z
}.

Record span_row : Type := mkSpanRow {
  span_sentence_id : Z;
  char_start : Z;
  char_end : Z
}.

(** A [Spouse] candidate: its two spans, [person1] and [person2]. *)
Record candidate_row : Type := mkCandidateRow {
  person1 : span_row;
  person2 : span_row;
  candidate_split : Z
}.

Record database : Type := mkDatabase {
  documents : list document_row;
  sentence_table : list sentence_row;
  span_table : list span_row;
  candidates : list candidate_row
}.

Inductive context : Type :=
  | CDocument (d : document_row)
  | CSentence (s : sentence_row)
  | CSpan (sp : span_row).

(** Modelled from the spec: [c.get_contexts()], the spans of a candidate in
    the order of its schema. *)
Definition get_contexts (c : candidate_row) : list span_row :=
  [person1 c; person2 c].

(** Modelled from the spec: [get_parent()], the context whose key this one
    holds; a document has no parent. *)
Definition get_parent (db : database) (c : context) : option context :=
  match c with
  | CSpan sp =>
      CSentence <$>
        List.find (λ s, sentence_key s =? span_sentence_id sp)
                  (sentence_table db)
  | CSentence s =>
      CDocument <$>
        List.find (λ d, document_id d =? sentence_document_id s)
                  (documents db)
  | CDocument _ => None
  end.

(** Modelled from the spec: [get_children()], the contexts that hold the key
    of this one ([doc.sentences], and the spans of a sentence). *)
Definition get_children (db : database) (c : context) : list context :=
  match c with
  | CDocument d =>
      CSentence <$>
        List.filter (λ s, sentence_document_id s =? document_id d)
                    (sentence_table db)
  | CSentence s =>
      CSpan <$>
        List.filter (λ sp, span_sentence_id sp =? sentence_key s)
                    (span_table db)
  | CSpan _ => []
  end.

(** The containment relation between the contexts stored in [db]. *)
Definition contains (db : database) (parent child : context) : Prop :=
  child ∈ get_children db parent.

(** What the schema of the framework's tables enforces: keys are unique,
    the key a context holds is the key of a stored context, and the spans
    of the candidates are stored. *)
Record well_formed (db : database) : Prop := mkWellFormed {
  wf_document_keys : NoDup (document_id <$> documents db);
  wf_sentence_keys : NoDup (sentence_key <$> sentence_table db);
  wf_sentence_parent : ∀ s, s ∈ sentence_table db →
    sentence_document_id s ∈ (document_id <$> documents db);
  wf_span_parent : ∀ sp, sp ∈ span_table db →
    span_sentence_id sp ∈ (sentence_key <$> sentence_table db);
  wf_candidate_spans : ∀ c sp, c ∈ candidates db →
    sp ∈ get_contexts c → sp ∈ span_table db
}.

(** A stored corpus of two documents and one candidate. *)
Definition example_span_1 : span_row :=
  {| span_sentence_id := 11; char_start := 0; char_end := 5 |}.
Definition example_span_2 : span_row :=
  {| span_sentence_id := 11; char_start := 20; char_end := 28 |}.
Definition example_candidate : candidate_row :=
  {| person1 := example_span_1; person2 := example_span_2;
     candidate_split := 0 |}.
Definition example_db : database :=
  {| documents :=
       [ {| document_id := 1; document_name := "a" |};
         {| document_id := 2; document_name := "b" |} ];
     sentence_table :=
       [ {| sentence_key := 10; sentence_document_id := 1;
            sentence_position := 0 |};
         {| sentence_key := 11; sentence_document_id := 1;
            sentence_position := 1 |};
         {| sentence_key := 20; sentence_document_id := 2;
            sentence_position := 0 |} ];
     span_table :=
       [ example_span_1; example_span_2;
         {| span_sentence_id := 20; char_start := 3; char_end := 9 |} ];
     candidates := [example_candidate] |}.

End ContextHierarchy.

(** * Notions for further properties of the authored code *)

(** Whether the last tag is ['PERSON']. *)
Definition ends_with_person (tags : list string) : bool :=
  match last tags with
  | Some t => is_person t
  | None => false
  end.

(** The number under which the notebook refers to a split: 0 for train, 1
    for dev, 2 for test. *)
Definition split_number (w : split_name) : Z :=
  match w with
  | Train => 0
  | Dev => 1
  | Test => 2
  end.

(** The split of the documents of index [i] among [ld], by the exact
    fractions. *)
Definition fraction_split (env : environ) (i ld : Z) : split_name :=
  let f := split_fractions env in
  if f.1.2 * i <? f.1.1 * ld then Train
  else if f.2.2 * i <? f.2.1 * ld then Dev
  else Test.

(** The fraction [f] of [ld], rounded up to an integer. *)
Definition ceil_fraction (f : Z * Z) (ld : Z) : nat :=
  Z.to_nat ((f.1 * ld + f.2 - 1) / f.2).

(** The sentences of a list of documents that pass the test
    [number_of_people(s) < 5], as a set. *)
Definition eligible (ds : list Document) : gset Sentence :=
  list_to_set (filter (λ s, number_of_people s < 5) (ds ≫= sentences)).

(** A document without the sentences that mention five people or more. *)
Definition keep_eligible (doc : Document) : Document :=
  {| name := name doc;
     sentences := filter (λ s, number_of_people s < 5) (sentences doc) |}.

(** A document with one sentence, which passes the filter. *)
Definition one_sentence_doc : Document :=
  {| name := "a"; sentences := [example_sentence 1 []] |}.

(** Two documents without a sentence that passes the filter. *)
Definition crowded_docs : list Document :=
  [ {| name := "a"; sentences :=
         [example_sentence 1
            ["PERSON"; "O"; "PERSON"; "O"; "PERSON"; "O"; "PERSON"; "O";
             "PERSON"]] |};
    {| name := "b"; sentences := [] |} ]%string.

(** [three_docs] with the sentences of the first document in another order,
    one of them twice. *)
Definition reordered_docs : list Document :=
  [ {| name := "a"; sentences :=
         [example_sentence 2 []; example_sentence 1 ["PERSON"];
          example_sentence 2 []] |};
    {| name := "b"; sentences := [] |};
    {| name := "c"; sentences := [example_sentence 3 ["O"]] |} ]%string.

(** * Proof steps for the arithmetic of the thresholds *)

(** The powers of two of the binary64 format, as numerals. *)
Ltac powers :=
  change (2 ^ 48) with 281474976710656 in *;
  change (2 ^ 52) with 4503599627370496 in *;
  change (2 ^ 53) with 9007199254740992 in *.

(** When the exact threshold is not an integer, rounding the product does
    not move it across one: linear arithmetic on the remainder, whatever it
    is. *)
Ltac inexact_threshold :=
  match goal with
  | Hr : 0 ≤ ?M mod ?P < ?P |- _ =>
      generalize dependent (M mod P); intros; powers; lia
  end.

(** * Properties of [number_of_people] *)

(** Three runs: positions 0-1, 3 and 6-8. *)
Example number_of_people_three_runs :
  let tags := ["PERSON"; "PERSON"; "O"; "PERSON"; "O"; "O"; "PERSON";
               "PERSON"; "PERSON"]%string in
  number_of_people (mkSentence 1 tags) = 3 ∧
  maximal_runs tags = [(0, 2); (3, 4); (6, 9)]%nat ∧
  run_list tags = [(0, 2); (3, 4); (6, 9)]%nat.
Proof. by vm_compute. Qed.

(** The comparison is exact: a tag in another case or a longer tag is not
    ['PERSON']. *)
Example number_of_people_other_tags :
  number_of_people (mkSentence 1 ["person"; "PERSONS"; "O"; ""]%string) = 0.
Proof. reflexivity. Qed.

Lemma is_person_spec t : is_person t = true ↔ t = PERSON.
Proof. unfold is_person. apply bool_decide_eq_true. Qed.

Lemma tag_is_person_spec tags k : tag_is_person tags k = true ↔ tags !! k = Some PERSON.
Proof.
  unfold tag_is_person. destruct (tags !! k) as [t|]; [|done].
  rewrite is_person_spec. split; congruence.
Qed.

Lemma tag_is_person_false tags k : tag_is_person tags k = false ↔ tags !! k ≠ Some PERSON.
Proof. rewrite <- tag_is_person_spec. destruct (tag_is_person tags k); split; congruence. Qed.

Lemma maximal_runb_spec tags i j : maximal_runb tags (i, j) = true ↔ maximal_run tags i j.
Proof.
  unfold maximal_runb, maximal_run. cbn [fst snd].
  rewrite !andb_true_iff, orb_true_iff, !negb_true_iff, Nat.ltb_lt, Nat.eqb_eq,
    forallb_forall, !tag_is_person_false.
  split.
  - intros [[[Hij Hall] Hl] Hr]. split_and!; try done.
    intros k Hk. apply tag_is_person_spec, Hall, in_seq. lia.
  - intros (Hij & Hall & Hl & Hr). split_and!; try done.
    intros k Hk%in_seq. apply tag_is_person_spec, Hall. lia.
Qed.

Lemma maximal_run_bound tags i j : maximal_run tags i j → (j ≤ length tags)%nat.
Proof.
  intros (Hij & Hall & _ & _).
  assert (tags !! (j - 1)%nat = Some PERSON) as H by (apply Hall; lia).
  apply lookup_lt_Some in H. lia.
Qed.

Lemma maximal_run_end_unique tags i j j' :
  maximal_run tags i j → maximal_run tags i j' → j = j'.
Proof.
  intros (Hij & Hall & _ & Hr) (Hij' & Hall' & _ & Hr').
  destruct (lt_eq_lt_dec j j') as [[Hlt| ->]|Hlt]; [|done|].
  - destruct Hr. apply Hall'. lia.
  - destruct Hr'. apply Hall. lia.
Qed.

Lemma elem_of_maximal_runs tags i j : (i, j) ∈ maximal_runs tags ↔ maximal_run tags i j.
Proof.
  unfold maximal_runs.
  rewrite list_elem_of_In, filter_In, in_prod_iff, !in_seq, maximal_runb_spec.
  split; [tauto|]. intros H. split; [|done].
  pose proof (maximal_run_bound _ _ _ H). destruct H as (? & _). lia.
Qed.

Lemma NoDup_list_prod {A B} (l : list A) (k : list B) :
  NoDup l → NoDup k → NoDup (list_prod l k).
Proof.
  intros Hl Hk. induction Hl as [|x l Hx Hl IH]; cbn [list_prod]; [constructor|].
  apply NoDup_app. split_and!; [|intros [a b] Ha Hb|done].
  - apply (NoDup_fmap_2 (pair x)), Hk.
  - apply list_elem_of_In, in_map_iff in Ha as (? & [= <- <-] & _).
    apply list_elem_of_In, in_prod_iff in Hb as [Hb%list_elem_of_In _]. done.
Qed.

Lemma NoDup_maximal_runs tags : NoDup (maximal_runs tags).
Proof.
  unfold maximal_runs.
  apply NoDup_ListNoDup, List.NoDup_filter, NoDup_ListNoDup, NoDup_list_prod;
    apply NoDup_seq.
Qed.

Lemma maximal_run_cons_SS t l i j :
  maximal_run (t :: l) (S (S i)) (S j) ↔ maximal_run l (S i) j.
Proof.
  unfold maximal_run. split.
  - intros (Hij & Hall & Hl & Hr). split_and!; [lia| |right|done].
    + intros k Hk. apply (Hall (S k)). lia.
    + destruct Hl as [|Hl]; [done|].
      by replace (S (S i) - 1)%nat with (S (S i - 1)) in Hl by lia.
  - intros (Hij & Hall & Hl & Hr). split_and!; [lia| |right|done].
    + intros [|k] Hk; [lia|]. apply (Hall k). lia.
    + destruct Hl as [|Hl]; [done|].
      by replace (S (S i) - 1)%nat with (S (S i - 1)) by lia.
Qed.

Lemma maximal_run_cons_1 t l j :
  maximal_run (t :: l) 1 (S j) ↔ t ≠ PERSON ∧ maximal_run l 0 j.
Proof.
  unfold maximal_run. split.
  - intros (Hij & Hall & Hl & Hr). split; [|split_and!; [lia| |by left|done]].
    + destruct Hl as [|Hl]; [done|]. cbn in Hl. congruence.
    + intros k Hk. apply (Hall (S k)). lia.
  - intros (Ht & Hij & Hall & Hl & Hr). split_and!; [lia| |right|done].
    + intros [|k] Hk; [lia|]. apply (Hall k). lia.
    + cbn. congruence.
Qed.

Lemma maximal_run_cons_0 t l j :
  maximal_run (t :: l) 0 (S j) ↔
  t = PERSON ∧ ((j = 0%nat ∧ l !! 0%nat ≠ Some PERSON) ∨ maximal_run l 0 j).
Proof.
  unfold maximal_run. split.
  - intros (Hij & Hall & Hl & Hr). split.
    + specialize (Hall 0%nat). cbn in Hall.
      assert (Some t = Some PERSON) by (apply Hall; lia). congruence.
    + destruct j as [|j]; [left; done|right].
      split_and!; [lia| |by left|done].
      intros k Hk. apply (Hall (S k)). lia.
  - intros (-> & [[-> Hr]|(Hij & Hall & Hl & Hr)]).
    + split_and!; [lia| |by left|done]. intros k Hk. by replace k with 0%nat by lia.
    + split_and!; [lia| |by left|done]. intros [|k] Hk; [done|]. apply (Hall k). lia.
Qed.

Lemma maximal_run_0_head l j : maximal_run l 0 j → l !! 0%nat = Some PERSON.
Proof. intros (Hij & Hall & _). apply Hall. lia. Qed.

Lemma maximal_run_start tags i j : maximal_run tags i j → tags !! i = Some PERSON.
Proof. intros (Hij & Hall & _). apply Hall. lia. Qed.

Lemma maximal_run_pos tags i j : maximal_run tags i j → ∃ j', j = S j'.
Proof. intros (Hij & _). exists (j - 1)%nat. lia. Qed.

(** The recursive enumeration lists exactly the maximal runs, each once, and
    starts with the run at position 0 when the first tag is ['PERSON']. *)
Lemma run_list_spec tags :
  (∀ i j, (i, j) ∈ run_list tags ↔ maximal_run tags i j) ∧
  NoDup (run_list tags) ∧
  (tags !! 0%nat = Some PERSON → ∃ j rs, run_list tags = (0%nat, j) :: rs).
Proof.
  induction tags as [|t l (IHin & IHnd & IHhd)].
  - split_and!; [|constructor|done].
    intros i j. split; [by intros ?%elem_of_nil|].
    intros H%maximal_run_start. done.
  - assert (Hshift : ∀ i j, (i, j) ∈ shift_run <$> run_list l ↔
              ∃ i' j', i = S i' ∧ j = S j' ∧ maximal_run l i' j').
    { intros i j. rewrite list_elem_of_fmap. split.
      - intros ([i' j'] & [= -> ->] & Hin). exists i', j'. by rewrite <- IHin.
      - intros (i' & j' & -> & -> & Hin). exists (i', j'). by rewrite IHin. }
    assert (Hnd : NoDup (shift_run <$> run_list l)).
    { apply NoDup_fmap_2; [|done]. intros [] [] [= -> ->]; done. }
    cbn [run_list]. destruct (is_person t) eqn:Ht.
    + apply is_person_spec in Ht as ->.
      destruct (tag_is_person l 0) eqn:Hl.
      * apply tag_is_person_spec in Hl.
        destruct (IHhd Hl) as (j0 & rs & Hrs). rewrite Hrs in *.
        cbn [fmap list_fmap extend_first shift_run fst snd].
        assert (H0 : maximal_run l 0 j0) by (apply IHin; left).
        apply NoDup_cons in IHnd as [Hnotin IHnd].
        split_and!; [| |eauto].
        -- intros i j. rewrite elem_of_cons.
           destruct j as [|j].
           { split; [|intros (? & _); lia].
             intros [[=]|([] & [=] & _)%list_elem_of_fmap]. }
           destruct i as [|[|i]].
           ++ rewrite maximal_run_cons_0. split.
              ** intros [[= ->]|([] & [=] & _)%list_elem_of_fmap]. eauto.
              ** intros (_ & [[_ ?]|H]); [done|]. left. do 2 f_equal.
                 eapply maximal_run_end_unique; eauto.
           ++ rewrite maximal_run_cons_1. split; [|intros [? _]; done].
              intros [[=]|([i' j'] & [= <- <-] & Hin)%list_elem_of_fmap].
              assert (maximal_run l 0 j) as H by (apply IHin; right; done).
              rewrite (maximal_run_end_unique _ _ _ _ H H0) in Hin. done.
           ++ rewrite maximal_run_cons_SS, <- IHin, elem_of_cons. split.
              ** intros [[=]|([i' j'] & [= -> ->] & Hin)%list_elem_of_fmap]. by right.
              ** intros [[=]|Hin]. right. apply list_elem_of_fmap. by exists (S i, j).
        -- apply NoDup_cons. split; [|apply NoDup_fmap_2; [|done]; intros [] [] [= -> ->]; done].
           intros ([] & [=] & _)%list_elem_of_fmap.
      * apply tag_is_person_false in Hl.
        split_and!; [| |eauto].
        -- intros i j. rewrite elem_of_cons, Hshift.
           destruct j as [|j]; [split; [intros [[=]|(? & ? & _ & [=] & _)]|intros (? & _); lia]|].
           destruct i as [|[|i]].
           ++ rewrite maximal_run_cons_0. split.
              ** intros [[= ->]|(? & ? & [=] & _)]. eauto.
              ** intros (_ & [[-> _]|H%maximal_run_0_head]); [by left|done].
           ++ rewrite maximal_run_cons_1. split; [|intros [? _]; done].
              intros [[=]|(? & ? & [= <-] & [= <-] & H%maximal_run_0_head)]. done.
           ++ rewrite maximal_run_cons_SS. split.
              ** intros [[=]|(? & ? & [= <-] & [= <-] & H)]. done.
              ** intros H. right. eauto.
        -- apply NoDup_cons. split; [|done]. rewrite Hshift. intros (? & ? & [=] & _).
    + assert (t ≠ PERSON) as Hne.
      { intros Heq%is_person_spec. congruence. }
      split_and!; [|done|cbn; congruence].
      intros i j. rewrite Hshift.
      destruct j as [|j]; [split; [intros (? & ? & _ & [=] & _)|intros (? & _); lia]|].
      destruct i as [|[|i]].
      * rewrite maximal_run_cons_0. split; [intros (? & ? & [=] & _)|intros [? _]; done].
      * rewrite maximal_run_cons_1. split.
        -- intros (? & ? & [= <-] & [= <-] & H). done.
        -- intros [_ H]. eauto.
      * rewrite maximal_run_cons_SS. split.
        -- intros (? & ? & [= <-] & [= <-] & H). done.
        -- intros H. eauto.
Qed.

Lemma length_extend_first rs : length (extend_first rs) = length rs.
Proof. by destruct rs. Qed.

Lemma length_run_list_cons t l :
  length (run_list (t :: l)) =
  if is_person t && negb (tag_is_person l 0) then S (length (run_list l))
  else length (run_list l).
Proof.
  cbn [run_list]. destruct (is_person t), (tag_is_person l 0); cbn [andb negb];
    rewrite ?length_extend_first, ?length_cons, ?length_fmap; done.
Qed.

Lemma tag_is_person_head t l : tag_is_person (t :: l) 0 = is_person t.
Proof. done. Qed.

(** The loop adds one to [count] for each maximal run it enters; a run that
    was already entered when the loop starts is not counted again. *)
Lemma count_loop_run_list st tags :
  count (count_loop st tags) =
  count st + Z.of_nat (length (run_list tags))
  - (if active_sequence st && tag_is_person tags 0 then 1 else 0).
Proof.
  revert st. induction tags as [|t l IH]; intros st.
  - cbn. destruct (active_sequence st); cbn; lia.
  - change (count_loop st (t :: l)) with (count_loop (count_step st t) l).
    rewrite IH, length_run_list_cons, tag_is_person_head. unfold count_step.
    destruct (is_person t), (active_sequence st) eqn:Hact, (tag_is_person l 0);
      cbn [andb negb active_sequence count]; rewrite ?Hact; cbn [andb]; lia.
Qed.

Lemma count_loop_bounds st tags :
  count st ≤ count (count_loop st tags) ≤ count st + person_tags tags.
Proof.
  revert st. induction tags as [|t l IH]; intros st.
  - unfold person_tags. cbn. lia.
  - change (count_loop st (t :: l)) with (count_loop (count_step st t) l).
    specialize (IH (count_step st t)). revert IH.
    unfold person_tags, count_step. cbn [List.filter].
    destruct (is_person t), (active_sequence st);
      cbn [andb negb active_sequence count length]; lia.
Qed.

Lemma count_loop_person st tags :
  active_sequence st = false → PERSON ∈ tags →
  count st < count (count_loop st tags).
Proof.
  revert st. induction tags as [|t l IH]; intros st Hact Hin.
  - by apply elem_of_nil in Hin.
  - change (count_loop st (t :: l)) with (count_loop (count_step st t) l).
    unfold count_step. rewrite Hact. cbn [negb]. rewrite andb_true_r, andb_false_r.
    destruct (is_person t) eqn:Ht.
    + pose proof (count_loop_bounds {| active_sequence := true; count := count st + 1 |} l) as H.
      cbn [count] in H. lia.
    + apply IH; [done|]. apply elem_of_cons in Hin as [<-|]; [|done].
      unfold is_person in Ht. by rewrite bool_decide_eq_false in Ht.
Qed.

Lemma person_tags_zero tags : PERSON ∉ tags → person_tags tags = 0.
Proof.
  unfold person_tags. induction tags as [|t l IH]; [done|].
  intros [Hne Hl]%not_elem_of_cons. cbn [List.filter].
  destruct (is_person t) eqn:Ht; [|by apply IH].
  apply is_person_spec in Ht. congruence.
Qed.

(** C1: for every sentence, [number_of_people] returns the number of maximal
    contiguous runs of the tag ['PERSON'] in its list of tags: the list
    [maximal_runs] holds each pair of positions that delimits such a run
    exactly once, and [number_of_people] is its length. *)
Theorem number_of_people_counts_maximal_runs (sentence : Sentence) :
  NoDup (maximal_runs (ner_tags sentence)) ∧
  (∀ i j, (i, j) ∈ maximal_runs (ner_tags sentence) ↔
          maximal_run (ner_tags sentence) i j) ∧
  number_of_people sentence =
    Z.of_nat (length (maximal_runs (ner_tags sentence))).
Proof.
  split_and!; [apply NoDup_maximal_runs|apply elem_of_maximal_runs|].
  unfold number_of_people. rewrite count_loop_run_list. cbn [count active_sequence andb].
  destruct (run_list_spec (ner_tags sentence)) as (Hin & Hnd & _).
  assert (run_list (ner_tags sentence) ≡ₚ maximal_runs (ner_tags sentence)) as ->.
  { apply NoDup_Permutation; [done|apply NoDup_maximal_runs|].
    intros [i j]. by rewrite Hin, elem_of_maximal_runs. }
  lia.
Qed.

(** C7: for every list of tags, [number_of_people] is non-negative and at
    most the number of entries equal to ['PERSON'], it is 0 exactly when no
    entry equals ['PERSON'], and it is 1 on two adjacent ['PERSON'] tags. *)
Theorem number_of_people_bounds (sentence : Sentence) :
  0 ≤ number_of_people sentence ≤ person_tags (ner_tags sentence) ∧
  (number_of_people sentence = 0 ↔ PERSON ∉ ner_tags sentence) ∧
  number_of_people
    {| sentence_id := sentence_id sentence; ner_tags := [PERSON; PERSON] |} = 1.
Proof.
  unfold number_of_people.
  pose proof (count_loop_bounds {| active_sequence := false; count := 0 |}
                (ner_tags sentence)) as Hb.
  cbn [count] in Hb. split_and!; [lia|lia| |done].
  split.
  - intros H0 Hin.
    apply (count_loop_person {| active_sequence := false; count := 0 |}) in Hin; [|done].
    cbn [count] in Hin. lia.
  - intros Hnot%person_tags_zero. lia.
Qed.

(** * Properties of the splitting loop *)

Lemma for_each_pure {A S} (body : S → A → outcome S) (f : S → A → S) l st :
  (∀ st x, x ∈ l → body st x = Return (f st x)) →
  for_each body l st = Return (foldl f st l).
Proof.
  revert st. induction l as [|x l IH]; intros st Hbody; [done|].
  cbn [for_each foldl]. rewrite Hbody by left. cbn.
  apply IH. intros st' y Hy. apply Hbody. by right.
Qed.

Lemma round_nearest_even_small n :
  0 ≤ n ≤ PY_SSIZE_T_MAX →
  0 ≤ fmant (round_nearest_even n 0) ≤ 2 ^ 63 ∧
  0 ≤ fexp (round_nearest_even n 0) ≤ 10.
Proof.
  unfold PY_SSIZE_T_MAX, round_nearest_even. intros Hn.
  destruct (Z.leb_spec (Z.log2 (Z.abs n) - 52) 0) as [Hk|Hk]; cbn [fmant fexp]; [lia|].
  rewrite Z.abs_eq in * by lia.
  assert (0 < n) as Hpos.
  { destruct (Z.eq_dec n 0) as [->|]; [|lia]. cbn in Hk. lia. }
  assert (Z.log2 n < 63) by (apply Z.log2_lt_pow2; lia).
  rewrite Z.sgn_pos, Z.mul_1_l by done.
  set (k := Z.log2 n - 52) in *.
  assert (0 ≤ Z.shiftr n k ≤ n) as Hq.
  { rewrite Z.shiftr_div_pow2 by lia. split; [apply Z.div_pos; lia|].
    apply Z.div_le_upper_bound; [lia|]. nia. }
  destruct (_ || _); lia.
Qed.

Lemma float_of_int_list_length n :
  0 ≤ n ≤ PY_SSIZE_T_MAX → float_of_int n = Return (round_nearest_even n 0).
Proof.
  intros Hn. unfold float_of_int.
  destruct (round_nearest_even_small n Hn) as [Hm He].
  set (f := round_nearest_even n 0) in *.
  destruct (Z.leb_spec (2 ^ 1024) (Z.abs (fmant f) * 2 ^ fexp f)) as [Hbig|];
    [|done].
  exfalso. rewrite Z.abs_eq in Hbig by lia.
  assert (2 ^ fexp f ≤ 2 ^ 10) by (apply Z.pow_le_mono_r; lia).
  assert (fmant f * 2 ^ fexp f ≤ 2 ^ 63 * 2 ^ 10)
    by (apply Z.mul_le_mono_nonneg; lia).
  revert Hbig. apply Z.lt_nge. eapply Z.le_lt_trans; [eassumption|]. done.
Qed.

Lemma threshold_returns env k ld :
  (k < 2)%nat → 0 ≤ ld ≤ PY_SSIZE_T_MAX →
  ∃ t, threshold (splits_of env) k ld = Return t.
Proof.
  intros Hk Hld. unfold threshold, splits_of, float_mul_int.
  rewrite float_of_int_list_length by done.
  destruct (in_CI env), k as [|[|k]]; cbn; eauto; lia.
Qed.

(** The products as CPython computes them ([float.hex] of [0.9 * 2993] is
    [0x1.50b6666666667p+11], and so on), the two exceptions, and the largest
    integer that [float] converts. *)
Example threshold_values :
  threshold [float_0_9; float_0_95] 0 2993
    = Return (mkFloat 5923508943480423 (-41)) ∧
  threshold [float_0_9; float_0_95] 1 2993
    = Return (mkFloat 6252592773673779 (-41)) ∧
  threshold [float_0_8; float_0_9] 0 3
    = Return (mkFloat 5404319552844596 (-51)) ∧
  threshold [float_0_9; float_0_95] 1 (2 ^ 60 + 12345)
    = Return (mkFloat 8556839292004033 7) ∧
  threshold [float_0_9; float_0_95] 0 (2 ^ 53 + 1)
    = Return (mkFloat 8106479329266893 0) ∧
  threshold [float_0_9; float_0_95] 2 10 = Raised IndexError ∧
  threshold [float_0_9; float_0_95] 0 (2 ^ 1024) = Raised OverflowError ∧
  float_of_int (2 ^ 1024 - 2 ^ 970) = Raised OverflowError ∧
  float_of_int (2 ^ 1024 - 2 ^ 970 - 1)
    = Return (mkFloat 9007199254740991 971).
Proof. by vm_compute. Qed.

Lemma split_sentence_place splits ld t0 t1 i st s :
  threshold splits 0 ld = Return t0 → threshold splits 1 ld = Return t1 →
  split_sentence splits ld i st s = Return (place t0 t1 i st s).
Proof.
  intros H0 H1. unfold split_sentence, place, assigned. rewrite H0, H1. cbn.
  destruct (number_of_people s <? 5), (int_lt_float i t0), (int_lt_float i t1); done.
Qed.

Lemma split_document_place splits ld t0 t1 st idoc :
  threshold splits 0 ld = Return t0 → threshold splits 1 ld = Return t1 →
  split_document splits ld st idoc = Return (place_document t0 t1 st idoc).
Proof.
  intros H0 H1. apply for_each_pure. intros st' s _.
  by apply split_sentence_place.
Qed.

(** Under the bound on the length of a list the loop completes, and its
    effect is that of placing every sentence by the two threshold values. *)
Lemma split_corpus_returns env docs :
  Z.of_nat (length docs) ≤ PY_SSIZE_T_MAX →
  ∃ t0 t1,
    threshold (splits_of env) 0 (Z.of_nat (length docs)) = Return t0 ∧
    threshold (splits_of env) 1 (Z.of_nat (length docs)) = Return t1 ∧
    split_corpus env docs =
      Return (foldl (place_document t0 t1) empty_split (enumerate docs)).
Proof.
  intros Hld.
  destruct (threshold_returns env 0 (Z.of_nat (length docs))) as [t0 H0]; [lia..|].
  destruct (threshold_returns env 1 (Z.of_nat (length docs))) as [t1 H1]; [lia..|].
  exists t0, t1. split_and!; [done..|].
  apply for_each_pure. intros st idoc _. by apply split_document_place.
Qed.

Lemma elem_of_add_to w w' s s' st :
  s' ∈ split_set w (add_to w' s st) ↔ s' ∈ split_set w st ∨ (w = w' ∧ s' = s).
Proof.
  destruct w, w'; cbn [split_set add_to train_sents dev_sents test_sents];
    rewrite ?elem_of_union, ?elem_of_singleton; intuition congruence.
Qed.

Lemma elem_of_place w t0 t1 i st s s' :
  s' ∈ split_set w (place t0 t1 i st s) ↔
  s' ∈ split_set w st ∨
  (s' = s ∧ number_of_people s' < 5 ∧ assigned t0 t1 i = w).
Proof.
  unfold place. destruct (Z.ltb_spec (number_of_people s) 5) as [Hlt|Hge].
  - rewrite elem_of_add_to. split.
    + intros [|[<- ->]]; [by left|by right].
    + intros [|(-> & _ & <-)]; [by left|by right].
  - split; [by left|]. intros [|(-> & ? & _)]; [done|lia].
Qed.

Lemma elem_of_place_sentences w t0 t1 i st l s :
  s ∈ split_set w (foldl (place t0 t1 i) st l) ↔
  s ∈ split_set w st ∨
  (s ∈ l ∧ number_of_people s < 5 ∧ assigned t0 t1 i = w).
Proof.
  revert st. induction l as [|x l IH]; intros st; cbn [foldl].
  - rewrite elem_of_nil. tauto.
  - rewrite IH, elem_of_place, elem_of_cons. tauto.
Qed.

Lemma elem_of_place_documents w t0 t1 start st docs s :
  s ∈ split_set w (foldl (place_document t0 t1) st (enumerate_from start docs)) ↔
  s ∈ split_set w st ∨
  ∃ (k : nat) doc, docs !! k = Some doc ∧ s ∈ sentences doc ∧
    number_of_people s < 5 ∧ assigned t0 t1 (start + Z.of_nat k) = w.
Proof.
  revert start st. induction docs as [|d docs IH]; intros start st;
    cbn [enumerate_from foldl].
  - split; [by left|]. intros [|(k & doc & Hk & _)]; done.
  - rewrite IH. unfold place_document at 1. cbn [fst snd].
    rewrite elem_of_place_sentences. split.
    + intros [[|(? & ? & ?)]|(k & doc & Hk & ? & ? & Hw)]; [by left| |].
      * right. exists 0%nat, d. by rewrite Z.add_0_r.
      * right. exists (S k), doc. split_and!; [done..|].
        rewrite <- Hw. f_equal. lia.
    + intros [|([|k] & doc & Hk & ? & ? & Hw)]; [by left; left| |].
      * injection Hk as ->. rewrite Z.add_0_r in Hw. left. by right.
      * right. exists k, doc. split_and!; [done..|].
        rewrite <- Hw. f_equal. lia.
Qed.

Lemma elem_of_split_corpus env docs :
  Z.of_nat (length docs) ≤ PY_SSIZE_T_MAX →
  ∃ t0 t1 st,
    threshold (splits_of env) 0 (Z.of_nat (length docs)) = Return t0 ∧
    threshold (splits_of env) 1 (Z.of_nat (length docs)) = Return t1 ∧
    split_corpus env docs = Return st ∧
    ∀ w s, s ∈ split_set w st ↔
      ∃ (i : nat) doc, docs !! i = Some doc ∧ s ∈ sentences doc ∧
        number_of_people s < 5 ∧ assigned t0 t1 (Z.of_nat i) = w.
Proof.
  intros Hld. destruct (split_corpus_returns env docs Hld) as (t0 & t1 & H0 & H1 & Hst).
  exists t0, t1. eexists. split_and!; [done..|].
  intros w s. unfold enumerate. rewrite elem_of_place_documents.
  split; [intros [Hin|H]; [|done]|by right].
  destruct w; by apply elem_of_empty in Hin.
Qed.

Lemma assigned_Train t0 t1 i : assigned t0 t1 i = Train ↔ int_lt_float i t0 = true.
Proof.
  unfold assigned.
  destruct (int_lt_float i t0), (int_lt_float i t1); intuition congruence.
Qed.

Lemma assigned_Dev t0 t1 i :
  assigned t0 t1 i = Dev ↔ int_lt_float i t0 = false ∧ int_lt_float i t1 = true.
Proof.
  unfold assigned.
  destruct (int_lt_float i t0), (int_lt_float i t1); intuition congruence.
Qed.

Lemma assigned_Test t0 t1 i :
  assigned t0 t1 i = Test ↔ int_lt_float i t0 = false ∧ int_lt_float i t1 = false.
Proof.
  unfold assigned.
  destruct (int_lt_float i t0), (int_lt_float i t1); intuition congruence.
Qed.

(** C2: the loop assigns the sentences to the splits by the index of their
    document.  With [splits] the pair (0.8, 0.9) when ['CI'] is in the
    environment and (0.9, 0.95) otherwise, [t0] the value of [splits[0] * ld]
    and [t1] that of [splits[1] * ld], the loop completes and a sentence is
    in [train_sents] exactly when it has fewer than five people and belongs
    to a document of index [i < t0], in [dev_sents] exactly when it has fewer
    than five people and belongs to a document with [t0 <= i < t1], in
    [test_sents] exactly when it has fewer than five people and belongs to a
    document of another index; a sentence with five people or more is in no
    split. *)
Theorem split_corpus_by_document_index (env : environ) (docs : list Document) :
  Z.of_nat (length docs) ≤ PY_SSIZE_T_MAX →
  splits_of env = (if decide (is_Some (env !! "CI"%string))
                   then [float_0_8; float_0_9] else [float_0_9; float_0_95]) ∧
  ∃ t0 t1 st,
    threshold (splits_of env) 0 (Z.of_nat (length docs)) = Return t0 ∧
    threshold (splits_of env) 1 (Z.of_nat (length docs)) = Return t1 ∧
    split_corpus env docs = Return st ∧
    ∀ s,
      (s ∈ train_sents st ↔
         ∃ (i : nat) doc, docs !! i = Some doc ∧ s ∈ sentences doc ∧
           number_of_people s < 5 ∧ int_lt_float (Z.of_nat i) t0 = true) ∧
      (s ∈ dev_sents st ↔
         ∃ (i : nat) doc, docs !! i = Some doc ∧ s ∈ sentences doc ∧
           number_of_people s < 5 ∧ int_lt_float (Z.of_nat i) t0 = false ∧
           int_lt_float (Z.of_nat i) t1 = true) ∧
      (s ∈ test_sents st ↔
         ∃ (i : nat) doc, docs !! i = Some doc ∧ s ∈ sentences doc ∧
           number_of_people s < 5 ∧ int_lt_float (Z.of_nat i) t0 = false ∧
           int_lt_float (Z.of_nat i) t1 = false) ∧
      (5 ≤ number_of_people s →
         (s ∉ train_sents st) ∧ (s ∉ dev_sents st) ∧ (s ∉ test_sents st)).
Proof.
  intros Hld. split.
  { unfold splits_of, in_CI. by rewrite decide_bool_decide. }
  destruct (elem_of_split_corpus env docs Hld) as (t0 & t1 & st & H0 & H1 & Hst & Hin).
  exists t0, t1, st. split_and!; [done..|]. intros s.
  pose proof (Hin Train s) as HT. pose proof (Hin Dev s) as HD.
  pose proof (Hin Test s) as HE. cbn [split_set] in HT, HD, HE.
  split_and!.
  - rewrite HT. by setoid_rewrite assigned_Train.
  - rewrite HD. by setoid_rewrite assigned_Dev.
  - rewrite HE. by setoid_rewrite assigned_Test.
  - intros Hge. rewrite HT, HD, HE.
    split_and!; intros (i & doc & _ & _ & Hlt & _); lia.
Qed.

(** C3: when every sentence belongs to one document only, the three sets
    are pairwise disjoint after the loop, and every sentence in one of them
    has fewer than five people. *)
Theorem split_sets_disjoint (env : environ) (docs : list Document) :
  Z.of_nat (length docs) ≤ PY_SSIZE_T_MAX →
  (∀ (i j : nat) di dj s,
     docs !! i = Some di → docs !! j = Some dj →
     s ∈ sentences di → s ∈ sentences dj → i = j) →
  ∃ st,
    split_corpus env docs = Return st ∧
    train_sents st ## dev_sents st ∧
    train_sents st ## test_sents st ∧
    dev_sents st ## test_sents st ∧
    ∀ s, s ∈ train_sents st ∪ dev_sents st ∪ test_sents st →
         number_of_people s < 5.
Proof.
  intros Hld Hone.
  destruct (elem_of_split_corpus env docs Hld) as (t0 & t1 & st & _ & _ & Hst & Hin).
  exists st. split; [done|].
  assert (Hsame : ∀ w w' s, s ∈ split_set w st → s ∈ split_set w' st → w = w').
  { intros w w' s (i & di & Hi & Hsi & _ & <-)%Hin (j & dj & Hj & Hsj & _ & <-)%Hin.
    by rewrite (Hone i j di dj s). }
  split_and!.
  - apply elem_of_disjoint. intros s H1 H2. by pose proof (Hsame Train Dev s H1 H2).
  - apply elem_of_disjoint. intros s H1 H2. by pose proof (Hsame Train Test s H1 H2).
  - apply elem_of_disjoint. intros s H1 H2. by pose proof (Hsame Dev Test s H1 H2).
  - intros s [[H|H]%elem_of_union|H]%elem_of_union.
    + apply (Hin Train) in H as (_ & _ & _ & _ & ? & _). done.
    + apply (Hin Dev) in H as (_ & _ & _ & _ & ? & _). done.
    + apply (Hin Test) in H as (_ & _ & _ & _ & ? & _). done.
Qed.

(** What the function does on other values: [None] and an integer are not
    iterable, a string is read character by character, and an item that is
    not a string separates runs. *)
Example number_of_people_py_values :
  number_of_people_py PyNone = Raised TypeError ∧
  number_of_people_py (PyInt 3) = Raised TypeError ∧
  number_of_people_py (PyStr "PERSON") = Return 0 ∧
  number_of_people_py (PyList []) = Return 0 ∧
  number_of_people_py
    (PyList [PyStr "PERSON"; PyNone; PyStr "PERSON"; PyList [PyStr "PERSON"]])
    = Return 2.
Proof. by vm_compute. Qed.

(** On a list of tag strings the function on values is the function on
    tags. *)
Lemma count_step_py_str st t : count_step_py st (PyStr t) = count_step st t.
Proof. reflexivity. Qed.

Lemma foldl_count_step_py st tags :
  foldl count_step_py st (PyStr <$> tags) = count_loop st tags.
Proof.
  revert st. induction tags as [|t l IH]; intros st; [done|].
  cbn [fmap list_fmap foldl]. rewrite count_step_py_str. apply IH.
Qed.

Lemma number_of_people_py_tags sentence :
  number_of_people_py (py_tags (ner_tags sentence))
  = Return (number_of_people sentence).
Proof.
  unfold number_of_people_py, py_tags, number_of_people. cbn [py_iter].
  cbn [mbind outcome_bind mret outcome_ret].
  by rewrite foldl_count_step_py.
Qed.

Lemma number_of_people_py_raises v e :
  number_of_people_py v = Raised e ↔
  e = TypeError ∧ (v = PyNone ∨ ∃ n, v = PyInt n).
Proof.
  unfold number_of_people_py. destruct v; cbn; split.
  all: try (intros [= <-]; eauto).
  all: try (intros [-> _]; done).
  all: try (intros [_ [[=]|[? [=]]]]).
  all: try done.
Qed.

(** A loop raises what one of its iterations raises. *)
Lemma for_each_raised {A S} (body : S → A → outcome S) l st e :
  for_each body l st = Raised e →
  ∃ st' x, x ∈ l ∧ body st' x = Raised e.
Proof.
  revert st. induction l as [|x l IH]; intros st; [done|].
  cbn [for_each]. destruct (body st x) as [st'|e'] eqn:Hbody; cbn.
  - intros (st'' & y & Hy & Hraise)%IH. exists st'', y. split; [by right|done].
  - intros [= ->]. exists st, x. split; [by left|done].
Qed.

Lemma threshold_raised env k ld e :
  threshold (splits_of env) k ld = Raised e → (k < 2)%nat →
  float_of_int ld = Raised e.
Proof.
  unfold threshold, splits_of, float_mul_int. intros Hraise Hk.
  destruct (in_CI env), k as [|[|k]]; try lia; cbn in Hraise;
    by destruct (float_of_int ld).
Qed.

Lemma split_corpus_raised env docs e :
  split_corpus env docs = Raised e →
  float_of_int (Z.of_nat (length docs)) = Raised e.
Proof.
  intros (st & [i doc] & _ & (st' & s & _ & Hs)%for_each_raised)%for_each_raised.
  unfold split_sentence in Hs. cbn [fst snd] in Hs.
  destruct (_ <? 5); [|done].
  destruct (threshold _ 0 _) as [t0|e0] eqn:H0; cbn in Hs.
  - destruct (int_lt_float _ t0); [done|].
    destruct (threshold _ 1 _) as [t1|e1] eqn:H1; cbn in Hs.
    + by destruct (int_lt_float _ t1).
    + injection Hs as ->. apply (threshold_raised _ _ _ _ H1). lia.
  - injection Hs as ->. apply (threshold_raised _ _ _ _ H0). lia.
Qed.

(** The loop does raise on a list longer than a list of Python can be, as
    soon as a sentence passes the filter. *)
Lemma split_corpus_oversized env :
  split_corpus env (replicate (S (Z.to_nat (2 ^ 1024))) one_sentence_doc)
  = Raised OverflowError.
Proof.
  unfold split_corpus. rewrite length_replicate.
  assert (Hld : float_of_int (Z.of_nat (S (Z.to_nat (2 ^ 1024))))
                = Raised OverflowError).
  { rewrite Nat2Z.inj_succ, Z2Nat.id by (apply Z.pow_nonneg; lia).
    by vm_compute. }
  revert Hld. generalize (Z.to_nat (2 ^ 1024)). intros N Hld.
  assert (Hthreshold : threshold (splits_of env) 0 (Z.of_nat (S N))
                       = Raised OverflowError).
  { unfold threshold, float_mul_int, splits_of.
    destruct (in_CI env); cbn [tuple_get lookup list_lookup];
      cbn [mbind outcome_bind]; by rewrite Hld. }
  assert (Hdoc : ∀ st, split_document (splits_of env) (Z.of_nat (S N)) st
                         (0, one_sentence_doc) = Raised OverflowError).
  { intros st. unfold split_document, one_sentence_doc.
    cbn [fst snd sentences for_each]. unfold split_sentence.
    change (number_of_people (example_sentence 1 []) <? 5) with true.
    cbv iota. by rewrite Hthreshold. }
  cbn [replicate enumerate enumerate_from for_each]. by rewrite Hdoc.
Qed.


(** The loop on the sample documents: outside the automated tests the
    thresholds are 9.0 and 9.5, and 8.0 and 9.0 within them. *)
Example split_corpus_example_docs :
  split_ids (split_corpus user_environ example_docs)
    = Some ([5; 7; 9; 1; 6; 2; 4; 8], [10], [])%positive.
Proof. vm_compute. reflexivity. Qed.

Example split_corpus_example_docs_CI :
  split_ids (split_corpus ci_environ example_docs)
    = Some ([5; 7; 1; 6; 2; 4; 8], [9], [10])%positive.
Proof. vm_compute. reflexivity. Qed.

(** A sentence held by the first and by the last of ten documents ends up
    in two sets. *)
Example split_corpus_shared_docs :
  split_ids (split_corpus ci_environ shared_docs)
    = Some ([1], [], [1])%positive.
Proof. vm_compute. reflexivity. Qed.

(** The sample lists are lists of Python. *)
Lemma example_docs_length : Z.of_nat (length example_docs) ≤ PY_SSIZE_T_MAX.
Proof. vm_compute. discriminate. Defined.

(** On the sample documents, outside the automated tests: the sentence of the
    last document is in [dev_sents]. *)
Lemma split_corpus_by_document_index_witness :
  Z.of_nat (length example_docs) ≤ PY_SSIZE_T_MAX ∧
  ∃ st, split_corpus user_environ example_docs = Return st ∧
        example_sentence 10 ["O"; "PERSON"]%string ∈ dev_sents st.
Proof.
  split; [exact example_docs_length|].
  destruct (split_corpus_by_document_index user_environ example_docs
              example_docs_length)
    as (_ & t0 & t1 & st & H0 & H1 & Hst & Hin).
  exists st. split; [exact Hst|].
  apply Hin.
  exists 9%nat, {| name := "j";
                   sentences := [example_sentence 10 ["O"; "PERSON"]] |}%string.
  vm_compute in H0. vm_compute in H1. injection H0 as <-. injection H1 as <-.
  split_and!; [reflexivity|apply list_elem_of_here|reflexivity..].
Defined.

(** No sentence of [three_docs] is held by two documents. *)
Lemma three_docs_one_document (i j : nat) di dj s :
  three_docs !! i = Some di → three_docs !! j = Some dj →
  s ∈ sentences di → s ∈ sentences dj → i = j.
Proof.
  intros Hi Hj Hsi Hsj.
  destruct i as [|[|[|i]]], j as [|[|[|j]]]; try reflexivity;
    cbn in Hi, Hj; rewrite ?lookup_nil in Hi, Hj; try discriminate;
    injection Hi as <-; injection Hj as <-; cbn [sentences] in Hsi, Hsj;
    unfold example_sentence in Hsi, Hsj;
    repeat match goal with
    | H : _ ∈ [] |- _ => by apply elem_of_nil in H
    | H : _ ∈ _ :: _ |- _ => apply elem_of_cons in H as [?|H]
    end; congruence.
Defined.

(** On [three_docs], within the automated tests. *)
Lemma split_sets_disjoint_witness :
  Z.of_nat (length three_docs) ≤ PY_SSIZE_T_MAX ∧
  ∃ st, split_corpus ci_environ three_docs = Return st ∧
        train_sents st ## test_sents st.
Proof.
  assert (Z.of_nat (length three_docs) ≤ PY_SSIZE_T_MAX) as Hld
    by (vm_compute; discriminate).
  split; [exact Hld|].
  destruct (split_sets_disjoint ci_environ three_docs Hld
              three_docs_one_document) as (st & Hst & _ & Hd & _).
  exists st. split; [exact Hst|exact Hd].
Defined.


(** * The thresholds against exact fractions *)

(** What rounding does to a significand of more than 53 bits: [k] bits are
    dropped, and the quotient goes up when the bits dropped are more than
    half a unit, down when they are less. *)
Lemma round_nearest_even_large M e :
  2 ^ 53 ≤ M →
  ∃ k q',
    round_nearest_even M e = mkFloat q' (e + k) ∧
    0 < k ∧ 2 ^ (k + 52) ≤ M < 2 ^ (k + 53) ∧
    (q' = M / 2 ^ k ∨ q' = M / 2 ^ k + 1) ∧
    (2 * (M mod 2 ^ k) < 2 ^ k → q' = M / 2 ^ k) ∧
    (2 ^ k < 2 * (M mod 2 ^ k) → q' = M / 2 ^ k + 1).
Proof.
  intros HM. assert (0 < M) as Hpos by lia.
  assert (53 ≤ Z.log2 M) as Hlog by (apply Z.log2_le_pow2; lia).
  pose proof (Z.log2_spec M Hpos) as Hspec.
  unfold round_nearest_even. rewrite Z.abs_eq, Z.sgn_pos by lia.
  set (k := Z.log2 M - 52) in *.
  destruct (Z.leb_spec k 0) as [|Hk]; [lia|].
  rewrite Z.shiftr_div_pow2, Z.land_ones by lia.
  replace (Z.log2 M) with (k + 52) in Hspec by lia.
  replace (Z.succ (k + 52)) with (k + 53) in Hspec by lia.
  assert (2 ^ k = 2 * 2 ^ (k - 1)) as Hhalf.
  { rewrite <- Z.pow_succ_r by lia. f_equal. lia. }
  eexists k, _. split; [reflexivity|]. rewrite Z.mul_1_l.
  split_and!; [lia|lia|lia| | |].
  - destruct (_ || _); [by right|by left].
  - intros Hlow.
    destruct (Z.ltb_spec (2 ^ (k - 1)) (M mod 2 ^ k)); [lia|].
    destruct (Z.eqb_spec (M mod 2 ^ k) (2 ^ (k - 1))); [lia|]. done.
  - intros Hhigh.
    destruct (Z.ltb_spec (2 ^ (k - 1)) (M mod 2 ^ k)); [done|lia].
Qed.

(** The test [i < x] for a float whose exponent is [k - 53]. *)
Lemma int_lt_float_scaled i q k :
  0 < k ≤ 53 →
  int_lt_float i (mkFloat q (-53 + k)) = true ↔ i * 2 ^ 53 < q * 2 ^ k.
Proof.
  intros Hk. unfold int_lt_float. cbn [fmant fexp].
  assert (0 < 2 ^ k) by (apply Z.pow_pos_nonneg; lia).
  destruct (Z.leb_spec 0 (-53 + k)).
  - replace k with 53 by lia. cbn [Z.add]. rewrite Z.ltb_lt. lia.
  - rewrite Z.ltb_lt.
    replace (2 ^ 53) with (2 ^ (- (-53 + k)) * 2 ^ k)
      by (rewrite <- Z.pow_add_r by lia; f_equal; lia).
    rewrite Z.mul_assoc. split; [apply Z.mul_lt_mono_pos_r; lia|].
    apply Z.mul_lt_mono_pos_r. lia.
Qed.

Lemma round_nearest_even_exact n e :
  0 ≤ n < 2 ^ 53 → round_nearest_even n e = mkFloat n e.
Proof.
  intros Hn. unfold round_nearest_even. rewrite Z.abs_eq by lia.
  destruct (Z.leb_spec (Z.log2 n - 52) 0) as [|Hk]; [done|].
  assert (Z.log2 n < 53); [|lia].
  destruct (Z.eq_dec n 0) as [->|]; [done|]. apply Z.log2_lt_pow2; lia.
Qed.

Lemma float_mul_int_small m ld :
  0 ≤ ld ≤ 2 ^ 48 →
  float_mul_int (mkFloat m (-53)) ld = Return (round_nearest_even (m * ld) (-53)).
Proof.
  intros Hld. unfold float_mul_int.
  rewrite float_of_int_list_length by (unfold PY_SSIZE_T_MAX; lia).
  rewrite round_nearest_even_exact by lia. done.
Qed.

(** The product of a constant in [[0.5, 1)] and of a list length, as the test
    [i < x] sees it: [X / 2 ^ 53], with [X] the exact product [m * ld]
    rounded to a multiple of [P], the unit in the last place. *)
Lemma rounded_product m ld :
  2 ^ 52 ≤ m < 2 ^ 53 → 2 ≤ ld ≤ 2 ^ 48 →
  ∃ P S X,
    (∀ i, int_lt_float i (round_nearest_even (m * ld) (-53)) = true ↔
          i * 2 ^ 53 < X) ∧
    0 < P ∧ 0 < S ∧ S * P = 2 ^ 53 ∧
    P * 2 ^ 52 ≤ m * ld < P * 2 ^ 53 ∧
    (X = m * ld - (m * ld) mod P ∨ X = m * ld - (m * ld) mod P + P) ∧
    (2 * ((m * ld) mod P) < P → X = m * ld - (m * ld) mod P) ∧
    (P < 2 * ((m * ld) mod P) → X = m * ld - (m * ld) mod P + P).
Proof.
  intros Hm Hld. set (M := m * ld).
  destruct (round_nearest_even_large M (-53))
    as (k & q' & -> & Hk & HM & Hq & Hdown & Hup); [subst M; nia|].
  assert (k < 49) as Hk49.
  { assert (k + 52 < 101); [|lia].
    apply (Z.pow_lt_mono_r_iff 2); [lia..|].
    change (2 ^ 101) with (2 ^ 53 * 2 ^ 48). subst M. nia. }
  assert (0 < 2 ^ k) as HP by (apply Z.pow_pos_nonneg; lia).
  assert (0 < 2 ^ (53 - k)) as HS by (apply Z.pow_pos_nonneg; lia).
  pose proof (Z.div_mod M (2 ^ k) ltac:(lia)) as Hdiv.
  exists (2 ^ k), (2 ^ (53 - k)), (q' * 2 ^ k).
  split_and!; [|done|done| | | | | |].
  - intros i. apply int_lt_float_scaled. lia.
  - rewrite <- Z.pow_add_r by lia. f_equal. lia.
  - rewrite !Z.pow_add_r in HM by lia. lia.
  - rewrite !Z.pow_add_r in HM by lia. lia.
  - destruct Hq as [-> | ->]; [left|right]; lia.
  - intros ->%Hdown. lia.
  - intros ->%Hup. lia.
Qed.

Lemma small_threshold m ld i N D :
  2 ^ 52 ≤ m < 2 ^ 53 → 0 < N < D → 0 ≤ ld ≤ 1 →
  int_lt_float i (round_nearest_even (m * ld) (-53)) = true ↔ D * i < N * ld.
Proof.
  intros Hm HND Hld. rewrite round_nearest_even_exact by nia.
  unfold int_lt_float. cbn [fmant fexp].
  change (0 <=? -53) with false. cbv iota. rewrite Z.ltb_lt.
  change (2 ^ (- -53)) with (2 ^ 53).
  destruct (Z.le_gt_cases i 0); assert (ld = 0 ∨ ld = 1) as [-> | ->] by lia;
    split; nia.
Qed.

Lemma threshold_0_9 ld :
  0 ≤ ld ≤ 2 ^ 48 →
  ∃ t, float_mul_int float_0_9 ld = Return t ∧
       ∀ i, int_lt_float i t = true ↔ 10 * i < 9 * ld.
Proof.
  intros Hld. unfold float_0_9. rewrite float_mul_int_small by done.
  eexists. split; [reflexivity|]. intros i.
  destruct (Z.le_gt_cases ld 1) as [Hsmall|Hbig].
  { apply small_threshold; [done|lia..]. }
  destruct (rounded_product 8106479329266893 ld)
    as (P & S & X & -> & HP & HS & HSP & HM & HX & Hdown & Hup); [done|lia|].
  pose proof (Z.mod_pos_bound (8106479329266893 * ld) P HP) as Hr.
  destruct (Z.eq_dec (10 * i) (9 * ld)) as [Heq|Hne]; [|inexact_threshold].
  set (n := ld - i). assert (ld = 10 * n) as Hn by lia.
  assert ((8106479329266893 * ld) mod P = 2 * n) as Hmod.
  { symmetry. apply (Z.mod_unique _ _ (9 * n * S)); [powers; lia|].
    transitivity (9 * n * (S * P) + 2 * n); [|ring]. rewrite HSP. lia. }
  rewrite Hmod in *. rewrite Hdown; powers; lia.
Qed.

Lemma threshold_0_8 ld :
  0 ≤ ld ≤ 2 ^ 48 →
  ∃ t, float_mul_int float_0_8 ld = Return t ∧
       ∀ i, int_lt_float i t = true ↔ 5 * i < 4 * ld.
Proof.
  intros Hld. unfold float_0_8. rewrite float_mul_int_small by done.
  eexists. split; [reflexivity|]. intros i.
  destruct (Z.le_gt_cases ld 1) as [Hsmall|Hbig].
  { apply small_threshold; [done|lia..]. }
  destruct (rounded_product 7205759403792794 ld)
    as (P & S & X & -> & HP & HS & HSP & HM & HX & Hdown & Hup); [done|lia|].
  pose proof (Z.mod_pos_bound (7205759403792794 * ld) P HP) as Hr.
  destruct (Z.eq_dec (5 * i) (4 * ld)) as [Heq|Hne]; [|inexact_threshold].
  set (n := ld - i). assert (ld = 5 * n) as Hn by lia.
  assert ((7205759403792794 * ld) mod P = 2 * n) as Hmod.
  { symmetry. apply (Z.mod_unique _ _ (4 * n * S)); [powers; lia|].
    transitivity (4 * n * (S * P) + 2 * n); [|ring]. rewrite HSP. lia. }
  rewrite Hmod in *. rewrite Hdown; powers; lia.
Qed.

Lemma threshold_0_95 ld :
  0 ≤ ld ≤ 2 ^ 48 →
  ∃ t, float_mul_int float_0_95 ld = Return t ∧
       ∀ i, int_lt_float i t = true ↔ 20 * i < 19 * ld.
Proof.
  intros Hld. unfold float_0_95. rewrite float_mul_int_small by done.
  eexists. split; [reflexivity|]. intros i.
  destruct (Z.le_gt_cases ld 1) as [Hsmall|Hbig].
  { apply small_threshold; [done|lia..]. }
  destruct (rounded_product 8556839292003942 ld)
    as (P & S & X & -> & HP & HS & HSP & HM & HX & Hdown & Hup); [done|lia|].
  pose proof (Z.mod_pos_bound (8556839292003942 * ld) P HP) as Hr.
  destruct (Z.eq_dec (20 * i) (19 * ld)) as [Heq|Hne]; [|inexact_threshold].
  set (n := ld - i). assert (ld = 20 * n) as Hn by lia.
  assert ((8556839292003942 * ld) mod P = P - 8 * n) as Hmod.
  { symmetry. apply (Z.mod_unique _ _ (19 * n * S - 1)); [powers; lia|].
    transitivity (19 * n * (S * P) - 8 * n); [|ring]. rewrite HSP. lia. }
  rewrite Hmod in *. rewrite Hup; powers; lia.
Qed.

Lemma threshold_fractions env ld :
  0 ≤ ld ≤ 2 ^ 48 →
  ∃ t0 t1,
    threshold (splits_of env) 0 ld = Return t0 ∧
    threshold (splits_of env) 1 ld = Return t1 ∧
    ∀ i, (int_lt_float i t0 = true ↔ before (split_fractions env).1 i ld) ∧
         (int_lt_float i t1 = true ↔ before (split_fractions env).2 i ld).
Proof.
  intros Hld. unfold threshold, splits_of, split_fractions, before.
  destruct (threshold_0_8 ld Hld) as (t8 & H8 & Hlt8).
  destruct (threshold_0_9 ld Hld) as (t9 & H9 & Hlt9).
  destruct (threshold_0_95 ld Hld) as (t95 & H95 & Hlt95).
  destruct (in_CI env); cbn [tuple_get lookup list_lookup mbind outcome_bind fst snd].
  - exists t8, t9. split_and!; [done..|]. intros i. split; [apply Hlt8|apply Hlt9].
  - exists t9, t95. split_and!; [done..|]. intros i. split; [apply Hlt9|apply Hlt95].
Qed.

(** X8: the loop in exact arithmetic.  For a corpus of at most [2 ^ 48]
    documents the rounding of the two products never changes the outcome of
    a test: the sentences with fewer than five people go to [train_sents]
    when the index of their document is below the first fraction of the
    number of documents, to [dev_sents] when it is between the two
    fractions, and to [test_sents] from the second fraction on. *)
Theorem split_corpus_by_fraction (env : environ) (docs : list Document) :
  Z.of_nat (length docs) ≤ 2 ^ 48 →
  ∃ st,
    split_corpus env docs = Return st ∧
    ∀ s,
      (s ∈ train_sents st ↔
         ∃ (i : nat) doc, docs !! i = Some doc ∧ s ∈ sentences doc ∧
           number_of_people s < 5 ∧
           before (split_fractions env).1 (Z.of_nat i) (Z.of_nat (length docs))) ∧
      (s ∈ dev_sents st ↔
         ∃ (i : nat) doc, docs !! i = Some doc ∧ s ∈ sentences doc ∧
           number_of_people s < 5 ∧
           ¬ before (split_fractions env).1 (Z.of_nat i) (Z.of_nat (length docs)) ∧
           before (split_fractions env).2 (Z.of_nat i) (Z.of_nat (length docs))) ∧
      (s ∈ test_sents st ↔
         ∃ (i : nat) doc, docs !! i = Some doc ∧ s ∈ sentences doc ∧
           number_of_people s < 5 ∧
           ¬ before (split_fractions env).1 (Z.of_nat i) (Z.of_nat (length docs)) ∧
           ¬ before (split_fractions env).2 (Z.of_nat i) (Z.of_nat (length docs))).
Proof.
  intros Hld.
  destruct (threshold_fractions env (Z.of_nat (length docs)))
    as (t0 & t1 & H0 & H1 & Hlt); [lia|].
  destruct (elem_of_split_corpus env docs) as (t0' & t1' & st & H0' & H1' & Hst & Hin).
  { unfold PY_SSIZE_T_MAX. change (2 ^ 48) with 281474976710656 in Hld.
    change (2 ^ 63) with 9223372036854775808. lia. }
  rewrite H0 in H0'. rewrite H1 in H1'. injection H0' as <-. injection H1' as <-.
  exists st. split; [done|]. intros s.
  assert (Hno : ∀ i t, int_lt_float i t = false ↔ ¬ int_lt_float i t = true)
    by (intros i t; destruct (int_lt_float i t); intuition congruence).
  pose proof (Hin Train s) as HT. pose proof (Hin Dev s) as HD.
  pose proof (Hin Test s) as HE. cbn [split_set] in HT, HD, HE.
  split_and!.
  - rewrite HT. setoid_rewrite assigned_Train.
    by setoid_rewrite (λ i, proj1 (Hlt i)).
  - rewrite HD. setoid_rewrite assigned_Dev. setoid_rewrite Hno.
    setoid_rewrite (λ i, proj1 (Hlt i)). by setoid_rewrite (λ i, proj2 (Hlt i)).
  - rewrite HE. setoid_rewrite assigned_Test. setoid_rewrite Hno.
    setoid_rewrite (λ i, proj1 (Hlt i)). by setoid_rewrite (λ i, proj2 (Hlt i)).
Qed.

(** * The order of the framework calls *)

Lemma step_rank_inj s s' : step_rank s = step_rank s' → s = s'.
Proof. by destruct s, s'. Qed.

Lemma in_order_precedes run seen n s s' :
  in_order seen run = true → run !! n = Some s →
  (step_rank s' < step_rank s)%nat →
  (step_rank s' < seen)%nat ∨ ∃ m, (m < n)%nat ∧ run !! m = Some s'.
Proof.
  revert seen n. induction run as [|x run IH]; intros seen n Hord Hn Hlt; [done|].
  cbn [in_order] in Hord. apply andb_true_iff in Hord as [Hx%Nat.leb_le Hord].
  destruct n as [|n].
  - injection Hn as ->. left. lia.
  - destruct (IH _ n Hord Hn Hlt) as [Hseen|(m & Hm & Hrun)].
    + destruct (decide (step_rank s' < seen)%nat) as [|Hge]; [by left|].
      right. exists 0%nat. split; [lia|]. cbn. f_equal.
      apply step_rank_inj. lia.
    + right. exists (S m). split; [lia|done].
Qed.

(** Every call of the extractor is followed at once by a query of the
    candidates of the split it filled. *)
Lemma extraction_then_query (env : environ) (n : nat) (k : Z) :
  notebook env !! n = Some (cand_extractor_apply k) →
  notebook env !! S n = Some (query_Spouse_all k) ∨
  notebook env !! S n = Some (query_Spouse_count k).
Proof.
  unfold notebook, cell_viewer, cell_render, cell_selected.
  destruct (in_CI env); cbn; intros Hn;
    repeat first
      [ discriminate Hn
      | destruct n as [|n]; cbn in Hn |- *;
        [try discriminate Hn; injection Hn as <-; auto|] ].
Qed.



(** * The context hierarchy *)

Section hierarchy.
Import ContextHierarchy.

Lemma find_key {A} (key : A → Z) (l : list A) (k : Z) :
  k ∈ key <$> l → ∃ x, List.find (λ x, key x =? k) l = Some x.
Proof.
  intros (x & -> & Hx)%list_elem_of_fmap.
  destruct (List.find _ l) as [y|] eqn:Hfind; [eauto|].
  apply list_elem_of_In in Hx.
  by apply (find_none _ _ Hfind), Z.eqb_neq in Hx.
Qed.

Lemma find_key_Some {A} (key : A → Z) (l : list A) (k : Z) x :
  List.find (λ x, key x =? k) l = Some x → x ∈ l ∧ key x = k.
Proof. intros [?%list_elem_of_In ?%Z.eqb_eq]%find_some. done. Qed.

Lemma key_unique {A} (key : A → Z) (l : list A) x y :
  NoDup (key <$> l) → x ∈ l → y ∈ l → key x = key y → x = y.
Proof.
  induction l as [|a l IH]; intros Hnd Hx Hy Hkey; [by apply elem_of_nil in Hx|].
  cbn in Hnd. apply NoDup_cons in Hnd as [Ha Hnd].
  apply elem_of_cons in Hx as [->|Hx], Hy as [->|Hy]; [done| | |by apply IH].
  - destruct Ha. rewrite Hkey. by apply list_elem_of_fmap_2.
  - destruct Ha. rewrite <- Hkey. by apply list_elem_of_fmap_2.
Qed.

(** C6: in a stored corpus that meets the constraints of the schema, for
    every span among the contexts of a candidate, [get_parent] of the span
    is the sentence that contains it, and [get_parent] of that sentence is
    the document that contains the sentence. *)
Theorem span_parents_contain (db : database) (c : candidate_row) (sp : span_row) :
  well_formed db → c ∈ candidates db → sp ∈ get_contexts c →
  ∃ s d,
    get_parent db (CSpan sp) = Some (CSentence s) ∧
    contains db (CSentence s) (CSpan sp) ∧
    (∀ s', s' ∈ sentence_table db →
           contains db (CSentence s') (CSpan sp) → s' = s) ∧
    get_parent db (CSpan sp) ≫= get_parent db = Some (CDocument d) ∧
    contains db (CDocument d) (CSentence s) ∧
    (∀ d', d' ∈ documents db →
           contains db (CDocument d') (CSentence s) → d' = d).
Proof.
  intros Hwf Hc Hsp.
  assert (Hstored : sp ∈ span_table db) by (by eapply wf_candidate_spans).
  destruct (find_key sentence_key (sentence_table db) (span_sentence_id sp))
    as [s Hs]; [by apply wf_span_parent|].
  pose proof (find_key_Some _ _ _ _ Hs) as [Hs_in Hs_key].
  destruct (find_key document_id (documents db) (sentence_document_id s))
    as [d Hd]; [by apply wf_sentence_parent|].
  pose proof (find_key_Some _ _ _ _ Hd) as [Hd_in Hd_key].
  exists s, d. unfold contains. cbn [get_parent get_children].
  rewrite Hs. cbn. rewrite Hd. cbn. split_and!; [done| | |done| |].
  - apply list_elem_of_fmap_2, list_elem_of_In, filter_In.
    split; [by apply list_elem_of_In|by apply Z.eqb_eq].
  - intros s' Hs' (sp' & [= <-] & [_ Hk%Z.eqb_eq]%list_elem_of_In%filter_In)%list_elem_of_fmap.
    apply (key_unique sentence_key (sentence_table db)); [apply Hwf|done..|congruence].
  - apply list_elem_of_fmap_2, list_elem_of_In, filter_In.
    split; [by apply list_elem_of_In|by apply Z.eqb_eq].
  - intros d' Hd' (s' & [= <-] & [_ Hk%Z.eqb_eq]%list_elem_of_In%filter_In)%list_elem_of_fmap.
    apply (key_unique document_id (documents db)); [apply Hwf|done..|congruence].
Qed.
(** The sample corpus meets the constraints of the schema. *)
Lemma example_db_well_formed : well_formed example_db.
Proof.
  split.
  - cbn. repeat (apply NoDup_cons_2; [rewrite ?elem_of_cons, elem_of_nil; lia|]).
    apply NoDup_nil_2.
  - cbn. repeat (apply NoDup_cons_2; [rewrite ?elem_of_cons, elem_of_nil; lia|]).
    apply NoDup_nil_2.
  - intros s Hs. cbn in *.
    repeat (apply elem_of_cons in Hs as [->|Hs]; [cbn; rewrite ?elem_of_cons; lia|]).
    by apply elem_of_nil in Hs.
  - intros sp Hsp. cbn in *.
    repeat (apply elem_of_cons in Hsp as [->|Hsp]; [cbn; rewrite ?elem_of_cons; lia|]).
    by apply elem_of_nil in Hsp.
  - intros c sp Hc Hsp.
    apply elem_of_cons in Hc as [->|Hc]; [|by apply elem_of_nil in Hc].
    apply elem_of_cons in Hsp as [->|Hsp]; [apply list_elem_of_here|].
    apply elem_of_cons in Hsp as [->|Hsp]; [|by apply elem_of_nil in Hsp].
    apply list_elem_of_further, list_elem_of_here.
Defined.

(** The second span of the sample candidate: its sentence has key 11, in
    the document of key 1. *)
Lemma span_parents_contain_witness :
  well_formed example_db ∧ example_candidate ∈ candidates example_db ∧
  example_span_2 ∈ get_contexts example_candidate ∧
  ∃ s d, get_parent example_db (CSpan example_span_2) = Some (CSentence s) ∧
         get_parent example_db (CSentence s) = Some (CDocument d) ∧
         sentence_key s = 11 ∧ document_id d = 1.
Proof.
  assert (example_candidate ∈ candidates example_db) as Hc
    by apply list_elem_of_here.
  assert (example_span_2 ∈ get_contexts example_candidate) as Hsp
    by apply list_elem_of_further, list_elem_of_here.
  split_and!; [exact example_db_well_formed|exact Hc|exact Hsp|].
  destruct (span_parents_contain example_db example_candidate example_span_2
              example_db_well_formed Hc Hsp)
    as (s & d & Hs & _ & _ & Hd & _).
  exists s, d. rewrite Hs in Hd. cbn in Hd.
  split_and!; [exact Hs|exact Hd| |].
  - vm_compute in Hs. by injection Hs as <-.
  - vm_compute in Hs. injection Hs as <-.
    vm_compute in Hd. by injection Hd as <-.
Defined.

End hierarchy.

(** * Further properties of [number_of_people] *)
Lemma active_sequence_count_step st t :
  active_sequence (count_step st t) = is_person t.
Proof.
  unfold count_step.
  by destruct (is_person t), (active_sequence st) eqn:Hact.
Qed.

Lemma active_sequence_count_loop st tags :
  active_sequence (count_loop st tags) =
  match last tags with
  | Some t => is_person t
  | None => active_sequence st
  end.
Proof.
  revert st. induction tags as [|t l IH]; intros st; [done|].
  change (count_loop st (t :: l)) with (count_loop (count_step st t) l).
  rewrite IH, last_cons. destruct (last l); [done|].
  apply active_sequence_count_step.
Qed.

Lemma count_loop_app st l1 l2 :
  count_loop st (l1 ++ l2) = count_loop (count_loop st l1) l2.
Proof. apply foldl_app. Qed.

Lemma number_of_people_run_list id tags :
  number_of_people (mkSentence id tags) = Z.of_nat (length (run_list tags)).
Proof.
  unfold number_of_people. rewrite count_loop_run_list.
  cbn [ner_tags count active_sequence andb]. lia.
Qed.

(** X1: the count of a concatenation is the sum of the counts of the two
    parts, less one when a run goes across the cut (the first part ends with
    ['PERSON'] and the second starts with it). *)
Theorem number_of_people_app (id1 id2 id : positive) (l1 l2 : list string) :
  number_of_people (mkSentence id (l1 ++ l2)) =
  number_of_people (mkSentence id1 l1) + number_of_people (mkSentence id2 l2)
  - (if ends_with_person l1 && tag_is_person l2 0 then 1 else 0).
Proof.
  rewrite (number_of_people_run_list id2).
  unfold number_of_people. cbn [ner_tags].
  rewrite count_loop_app, count_loop_run_list, active_sequence_count_loop.
  unfold ends_with_person. cbn [active_sequence].
  destruct (last l1); lia.
Qed.

Lemma last_reverse_head (l : list string) :
  ends_with_person (reverse l) = tag_is_person l 0.
Proof.
  unfold ends_with_person, tag_is_person. rewrite last_reverse.
  by destruct l.
Qed.

Lemma number_of_people_singleton id t :
  number_of_people (mkSentence id [t]) = if is_person t then 1 else 0.
Proof.
  unfold number_of_people, count_loop, count_step. cbn.
  by destruct (is_person t).
Qed.

(** X2: reading the tags from the last to the first gives the same count. *)
Theorem number_of_people_reverse (id id' : positive) (tags : list string) :
  number_of_people (mkSentence id (reverse tags)) =
  number_of_people (mkSentence id' tags).
Proof.
  induction tags as [|t l IH]; [done|].
  rewrite reverse_cons, (number_of_people_app id id id), IH, last_reverse_head.
  change (t :: l) with ([t] ++ l).
  rewrite (number_of_people_app id' id' id').
  rewrite !number_of_people_singleton.
  unfold ends_with_person. cbn [last]. rewrite tag_is_person_head.
  destruct (tag_is_person l 0), (is_person t); cbn [andb]; lia.
Qed.

Lemma count_loop_half st tags :
  2 * count (count_loop st tags) ≤
  2 * count st + Z.of_nat (length tags)
  + (if active_sequence st then 0 else 1).
Proof.
  revert st. induction tags as [|t l IH]; intros st.
  - cbn. destruct (active_sequence st); lia.
  - change (count_loop st (t :: l)) with (count_loop (count_step st t) l).
    specialize (IH (count_step st t)). revert IH.
    rewrite active_sequence_count_step. unfold count_step.
    destruct (is_person t), (active_sequence st) eqn:Hact;
      cbn [andb negb count length]; rewrite ?Hact; lia.
Qed.

(** X3: two runs are separated by a tag, so twice the count is at most the
    number of tags plus one; a sentence is filtered out only if it has nine
    tags or more. *)
Theorem number_of_people_half_length (sentence : Sentence) :
  2 * number_of_people sentence ≤ Z.of_nat (length (ner_tags sentence)) + 1 ∧
  (number_of_people sentence < 5 ∨ (9 ≤ length (ner_tags sentence))%nat).
Proof.
  pose proof (count_loop_half {| active_sequence := false; count := 0 |}
                (ner_tags sentence)) as H.
  unfold number_of_people. cbn [count active_sequence] in H. lia.
Qed.

Lemma count_loop_is_person st l1 l2 :
  is_person <$> l1 = is_person <$> l2 →
  count_loop st l1 = count_loop st l2.
Proof.
  revert st l2. induction l1 as [|t1 l1 IH]; intros st [|t2 l2] Heq;
    try done.
  cbn in Heq. injection Heq as Ht Hl.
  change (count_loop (count_step st t1) l1 = count_loop (count_step st t2) l2).
  rewrite (IH _ l2 Hl). f_equal. unfold count_step. by rewrite Ht.
Qed.

(** X4: the count depends on the tags only through the test
    [tag == 'PERSON']: every other tag separates runs alike. *)
Theorem number_of_people_only_person (s1 s2 : Sentence) :
  is_person <$> ner_tags s1 = is_person <$> ner_tags s2 →
  number_of_people s1 = number_of_people s2.
Proof.
  intros Heq. unfold number_of_people. by rewrite (count_loop_is_person _ _ _ Heq).
Qed.

(** * Further properties of the splitting loop *)

Lemma split_state_eq st st' :
  (∀ w s, s ∈ split_set w st ↔ s ∈ split_set w st') → st = st'.
Proof.
  intros H. destruct st, st'. f_equal; apply set_eq; intros s.
  - apply (H Train).
  - apply (H Dev).
  - apply (H Test).
Qed.

Lemma elem_of_eligible ds s :
  s ∈ eligible ds ↔
  number_of_people s < 5 ∧ ∃ doc, doc ∈ ds ∧ s ∈ sentences doc.
Proof.
  unfold eligible.
  rewrite elem_of_list_to_set, list_elem_of_filter, list_elem_of_bind.
  split; intros (? & d & ? & ?); eauto.
Qed.

Lemma list_length_bound (docs : list Document) :
  Z.of_nat (length docs) ≤ 2 ^ 48 → Z.of_nat (length docs) ≤ PY_SSIZE_T_MAX.
Proof.
  unfold PY_SSIZE_T_MAX. change (2 ^ 48) with 281474976710656.
  change (2 ^ 63) with 9223372036854775808. lia.
Qed.

Lemma assigned_fraction_split env ld t0 t1 i :
  0 ≤ ld ≤ 2 ^ 48 →
  threshold (splits_of env) 0 ld = Return t0 →
  threshold (splits_of env) 1 ld = Return t1 →
  assigned t0 t1 i = fraction_split env i ld.
Proof.
  intros Hld H0 H1.
  destruct (threshold_fractions env ld Hld) as (t0' & t1' & H0' & H1' & Hlt).
  rewrite H0 in H0'. rewrite H1 in H1'. injection H0' as <-. injection H1' as <-.
  destruct (Hlt i) as [Hlt0 Hlt1]. unfold before in *.
  unfold assigned, fraction_split. cbv zeta.
  destruct (int_lt_float i t0), (Z.ltb_spec ((split_fractions env).1.2 * i)
                                            ((split_fractions env).1.1 * ld));
    try done; try (exfalso; intuition lia); try (exfalso; intuition congruence).
  destruct (int_lt_float i t1), (Z.ltb_spec ((split_fractions env).2.2 * i)
                                            ((split_fractions env).2.1 * ld));
    try done; try (exfalso; intuition lia); try (exfalso; intuition congruence).
Qed.

(** The sets after the loop, by exact fractions of the number of
    documents. *)
Lemma elem_of_split_corpus_fraction env docs :
  Z.of_nat (length docs) ≤ 2 ^ 48 →
  ∃ st,
    split_corpus env docs = Return st ∧
    ∀ w s, s ∈ split_set w st ↔
      ∃ (i : nat) doc, docs !! i = Some doc ∧ s ∈ sentences doc ∧
        number_of_people s < 5 ∧
        fraction_split env (Z.of_nat i) (Z.of_nat (length docs)) = w.
Proof.
  intros Hld.
  destruct (elem_of_split_corpus env docs (list_length_bound docs Hld))
    as (t0 & t1 & st & H0 & H1 & Hst & Hin).
  assert (Heq : ∀ i, assigned t0 t1 i
                     = fraction_split env i (Z.of_nat (length docs)))
    by (intros i; apply assigned_fraction_split; [lia|done..]).
  exists st. split; [done|]. intros w s. rewrite Hin.
  by setoid_rewrite Heq.
Qed.

Lemma elem_of_enumerate_from {A} (start : Z) (l : list A) i x :
  (i, x) ∈ enumerate_from start l → x ∈ l.
Proof.
  revert start. induction l as [|y l IH]; intros start; cbn [enumerate_from].
  - by intros ?%elem_of_nil.
  - intros [[= _ ->]|Hin]%elem_of_cons; [left|right; eauto].
Qed.

Lemma foldl_unchanged {A S} (st : S) (l : list A) : foldl (λ st _, st) st l = st.
Proof. by induction l. Qed.

(** X5: the loop loses no sentence and invents none: the three sets together
    hold exactly the sentences of the documents that mention fewer than five
    people. *)
Theorem split_corpus_covers (env : environ) (docs : list Document) :
  Z.of_nat (length docs) ≤ PY_SSIZE_T_MAX →
  ∃ st,
    split_corpus env docs = Return st ∧
    ∀ s, s ∈ train_sents st ∪ dev_sents st ∪ test_sents st ↔
         number_of_people s < 5 ∧ ∃ doc, doc ∈ docs ∧ s ∈ sentences doc.
Proof.
  intros Hld.
  destruct (elem_of_split_corpus env docs Hld) as (t0 & t1 & st & _ & _ & Hst & Hin).
  exists st. split; [done|]. intros s.
  pose proof (Hin Train s) as HT. pose proof (Hin Dev s) as HD.
  pose proof (Hin Test s) as HE. cbn [split_set] in HT, HD, HE.
  rewrite !elem_of_union, HT, HD, HE. split.
  - intros [[H|H]|H]; destruct H as (i & doc & Hi & Hs & Hlt & _);
      (split; [done|]); exists doc; split; try done;
      by eapply list_elem_of_lookup_2.
  - intros (Hlt & doc & [i Hi]%list_elem_of_lookup_1 & Hs).
    destruct (assigned t0 t1 (Z.of_nat i)) eqn:Hw;
      [left; left|left; right|right]; eauto 10.
Qed.

(** X6: when no sentence passes the filter (an empty corpus, documents
    without sentences, or sentences of five people or more only) the loop
    completes with three empty sets, whatever the number of documents: the
    products [splits[k] * ld] are never computed. *)
Theorem split_corpus_nothing_eligible (env : environ) (docs : list Document) :
  (∀ doc s, doc ∈ docs → s ∈ sentences doc → 5 ≤ number_of_people s) →
  split_corpus env docs = Return empty_split.
Proof.
  intros Hcrowd. unfold split_corpus.
  rewrite (for_each_pure _ (λ st _, st)); [by rewrite foldl_unchanged|].
  intros st [i doc] Hdoc%elem_of_enumerate_from. unfold split_document.
  rewrite (for_each_pure _ (λ st _, st)); [by rewrite foldl_unchanged|].
  intros st' s Hs. unfold split_sentence. cbn [fst snd] in *.
  destruct (Z.ltb_spec (number_of_people s) 5) as [Hlt|]; [|done].
  specialize (Hcrowd doc s Hdoc Hs). lia.
Qed.

Lemma int_lt_float_mono i j t :
  i ≤ j → int_lt_float j t = true → int_lt_float i t = true.
Proof.
  unfold int_lt_float. intros Hij.
  destruct (0 <=? fexp t); rewrite !Z.ltb_lt; [lia|].
  assert (0 ≤ 2 ^ (- fexp t)) by apply Z.pow_nonneg, (Zle_0_pos 2).
  nia.
Qed.

Lemma assigned_mono t0 t1 i j :
  i ≤ j → split_number (assigned t0 t1 i) ≤ split_number (assigned t0 t1 j).
Proof.
  intros Hij. unfold assigned.
  pose proof (int_lt_float_mono i j t0 Hij) as H0.
  pose proof (int_lt_float_mono i j t1 Hij) as H1.
  destruct (int_lt_float j t0), (int_lt_float j t1);
    rewrite ?H0, ?H1 by done; cbn;
    destruct (int_lt_float i t0), (int_lt_float i t1); cbn; lia.
Qed.

(** X7: the splits follow the order of the documents: of two sentences
    that pass the filter, the one of the earlier document is placed in a split
    whose number is not larger (train before dev before test). *)
Theorem split_corpus_contiguous (env : environ) (docs : list Document) :
  Z.of_nat (length docs) ≤ PY_SSIZE_T_MAX →
  ∃ st,
    split_corpus env docs = Return st ∧
    ∀ (i j : nat) di dj s s',
      docs !! i = Some di → docs !! j = Some dj →
      s ∈ sentences di → s' ∈ sentences dj →
      number_of_people s < 5 → number_of_people s' < 5 → (i ≤ j)%nat →
      ∃ w w', s ∈ split_set w st ∧ s' ∈ split_set w' st ∧
              split_number w ≤ split_number w'.
Proof.
  intros Hld.
  destruct (elem_of_split_corpus env docs Hld) as (t0 & t1 & st & _ & _ & Hst & Hin).
  exists st. split; [done|]. intros i j di dj s s' Hi Hj Hs Hs' Hlt Hlt' Hij.
  exists (assigned t0 t1 (Z.of_nat i)), (assigned t0 t1 (Z.of_nat j)).
  split_and!.
  - apply Hin. eauto 10.
  - apply Hin. eauto 10.
  - apply assigned_mono. lia.
Qed.

Lemma lt_ceil_fraction n d (i : nat) ld :
  0 < d → 0 ≤ n → 0 ≤ ld →
  (i < ceil_fraction (n, d) ld)%nat ↔ d * Z.of_nat i < n * ld.
Proof.
  intros Hd Hn Hld. unfold ceil_fraction. cbn [fst snd].
  assert (0 ≤ n * ld) by lia.
  assert (0 ≤ (n * ld + d - 1) / d) by (apply Z.div_pos; lia).
  rewrite Nat2Z.inj_lt, Z2Nat.id by done. split.
  - intros Hi. apply Z.nle_gt. intros Hge.
    assert ((n * ld + d - 1) / d < Z.of_nat i + 1); [|lia].
    apply Z.div_lt_upper_bound; nia.
  - intros Hi. assert (Z.of_nat i + 1 ≤ (n * ld + d - 1) / d); [|lia].
    apply Z.div_le_lower_bound; nia.
Qed.

Lemma fraction_split_blocks env (i : nat) ld :
  0 ≤ ld →
  let c0 := ceil_fraction (split_fractions env).1 ld in
  let c1 := ceil_fraction (split_fractions env).2 ld in
  (fraction_split env (Z.of_nat i) ld = Train ↔ (i < c0)%nat) ∧
  (fraction_split env (Z.of_nat i) ld = Dev ↔ (c0 ≤ i < c1)%nat) ∧
  (fraction_split env (Z.of_nat i) ld = Test ↔ (c0 ≤ i ∧ c1 ≤ i)%nat).
Proof.
  intros Hld. unfold fraction_split, split_fractions.
  destruct (in_CI env); cbn [fst snd]; cbv zeta.
  - pose proof (lt_ceil_fraction 4 5 i ld) as H0.
    pose proof (lt_ceil_fraction 9 10 i ld) as H1.
    destruct (Z.ltb_spec (5 * Z.of_nat i) (4 * ld)),
             (Z.ltb_spec (10 * Z.of_nat i) (9 * ld));
      split_and!; split; intros; try done; lia.
  - pose proof (lt_ceil_fraction 9 10 i ld) as H0.
    pose proof (lt_ceil_fraction 19 20 i ld) as H1.
    destruct (Z.ltb_spec (10 * Z.of_nat i) (9 * ld)),
             (Z.ltb_spec (20 * Z.of_nat i) (19 * ld));
      split_and!; split; intros; try done; lia.
Qed.

Lemma ceil_fraction_le env ld :
  0 ≤ ld →
  (ceil_fraction (split_fractions env).1 ld
   ≤ ceil_fraction (split_fractions env).2 ld)%nat.
Proof.
  intros Hld. unfold split_fractions.
  destruct (in_CI env); cbn [fst snd]; apply Nat.nlt_ge; intros Hlt.
  - apply lt_ceil_fraction in Hlt; [|lia..].
    pose proof (lt_ceil_fraction 9 10 (ceil_fraction (9, 10) ld) ld). lia.
  - apply lt_ceil_fraction in Hlt; [|lia..].
    pose proof (lt_ceil_fraction 19 20 (ceil_fraction (19, 20) ld) ld). lia.
Qed.

(** X9: up to [2 ^ 48] documents the loop cuts the list of documents in
    three consecutive blocks: the first [c0] documents go to train, the next
    [c1 - c0] to dev and the others to test, with [c0] and [c1] the two
    fractions of the number of documents rounded up; each set holds the
    sentences of its block that pass the filter. *)
Theorem split_corpus_blocks (env : environ) (docs : list Document) :
  Z.of_nat (length docs) ≤ 2 ^ 48 →
  let c0 := ceil_fraction (split_fractions env).1 (Z.of_nat (length docs)) in
  let c1 := ceil_fraction (split_fractions env).2 (Z.of_nat (length docs)) in
  split_corpus env docs =
    Return {| train_sents := eligible (take c0 docs);
              dev_sents := eligible (take (c1 - c0) (drop c0 docs));
              test_sents := eligible (drop c1 docs) |}.
Proof.
  intros Hld c0 c1.
  destruct (elem_of_split_corpus_fraction env docs Hld) as (st & -> & Hin).
  f_equal. apply split_state_eq. intros w s. rewrite Hin.
  assert (Hblocks := λ i, fraction_split_blocks env i (Z.of_nat (length docs))
                            ltac:(lia)).
  cbv zeta in Hblocks. fold c0 c1 in Hblocks.
  assert (c0 ≤ c1)%nat as Hle by (apply ceil_fraction_le; lia).
  destruct w; cbn [split_set train_sents dev_sents test_sents];
    rewrite elem_of_eligible; split.
  - intros (i & doc & Hi & Hs & Hlt & Hw). split; [done|]. exists doc.
    split; [|done]. apply elem_of_take. exists i. split; [done|].
    by apply Hblocks.
  - intros (Hlt & doc & (i & Hi & Hc)%elem_of_take & Hs).
    exists i, doc. split_and!; [done..|]. by apply Hblocks.
  - intros (i & doc & Hi & Hs & Hlt & Hw). split; [done|]. exists doc.
    split; [|done]. apply Hblocks in Hw.
    apply elem_of_take. exists (i - c0)%nat. split; [|lia].
    rewrite lookup_drop. by replace (c0 + (i - c0))%nat with i by lia.
  - intros (Hlt & doc & (k & Hk & Hc)%elem_of_take & Hs).
    rewrite lookup_drop in Hk. exists (c0 + k)%nat, doc.
    split_and!; [done..|]. apply Hblocks. lia.
  - intros (i & doc & Hi & Hs & Hlt & Hw). split; [done|]. exists doc.
    split; [|done]. apply Hblocks in Hw.
    apply list_elem_of_lookup. exists (i - c1)%nat.
    rewrite lookup_drop. by replace (c1 + (i - c1))%nat with i by lia.
  - intros (Hlt & doc & [k Hk]%list_elem_of_lookup & Hs).
    rewrite lookup_drop in Hk. exists (c1 + k)%nat, doc.
    split_and!; [done..|]. apply Hblocks. lia.
Qed.

(** X10: a small corpus has no test set, and a smaller one no dev set
    either: [test_sents] is empty below 20 documents (10 within the automated
    tests) and [dev_sents] below 10 (5 within the automated tests). *)
Theorem split_corpus_small (env : environ) (docs : list Document) :
  Z.of_nat (length docs) < (if in_CI env then 10 else 20) →
  ∃ st,
    split_corpus env docs = Return st ∧
    test_sents st = ∅ ∧
    (Z.of_nat (length docs) < (if in_CI env then 5 else 10) →
     dev_sents st = ∅).
Proof.
  intros Hld.
  destruct (elem_of_split_corpus_fraction env docs) as (st & Hst & Hin).
  { change (2 ^ 48) with 281474976710656. destruct (in_CI env); lia. }
  exists st. split; [done|].
  assert (Hcase : ∀ (i : nat) w,
    (i < length docs)%nat →
    fraction_split env (Z.of_nat i) (Z.of_nat (length docs)) = w →
    w ≠ Test ∧
    (Z.of_nat (length docs) < (if in_CI env then 5 else 10) → w ≠ Dev)).
  { intros i w Hi <-. unfold fraction_split, split_fractions.
    destruct (in_CI env); cbn [fst snd]; cbv zeta;
      repeat match goal with
      | |- context [?a <? ?b] => destruct (Z.ltb_spec a b)
      end; split; try done; try lia. }
  split.
  - apply set_eq. intros s. rewrite elem_of_empty. split; [|done].
    intros (i & doc & Hi%lookup_lt_Some & _ & _ & Hw)%(Hin Test).
    by destruct (Hcase i Test Hi Hw).
  - intros Hsmall. apply set_eq. intros s. rewrite elem_of_empty. split; [|done].
    intros (i & doc & Hi%lookup_lt_Some & _ & _ & Hw)%(Hin Dev).
    destruct (Hcase i Dev Hi Hw) as [_ Hdev]. by apply Hdev.
Qed.

(** X11: the two settings of [splits] share the cut at 90 %: on the same
    documents, [train_sents] outside the automated tests is the union of
    [train_sents] and [dev_sents] within them, and [test_sents] within them is
    the union of [dev_sents] and [test_sents] outside. *)
Theorem split_corpus_CI_moves (env_ci env : environ) (docs : list Document) :
  Z.of_nat (length docs) ≤ 2 ^ 48 →
  is_Some (env_ci !! "CI"%string) → env !! "CI"%string = None →
  ∃ st_ci st,
    split_corpus env_ci docs = Return st_ci ∧
    split_corpus env docs = Return st ∧
    train_sents st = train_sents st_ci ∪ dev_sents st_ci ∧
    test_sents st_ci = dev_sents st ∪ test_sents st.
Proof.
  intros Hld Hci Hno.
  destruct (elem_of_split_corpus_fraction env_ci docs Hld) as (st_ci & Hst_ci & Hin_ci).
  destruct (elem_of_split_corpus_fraction env docs Hld) as (st & Hst & Hin).
  exists st_ci, st. split_and!; [done..| |].
  - apply set_eq. intros s. rewrite elem_of_union.
    rewrite (Hin Train), (Hin_ci Train), (Hin_ci Dev).
    unfold fraction_split, split_fractions, in_CI.
    rewrite (bool_decide_eq_true_2 _ Hci).
    rewrite bool_decide_eq_false_2 by (rewrite Hno; by intros [? ?]).
    cbn [fst snd]; cbv zeta. split.
    + intros (i & doc & Hi & Hs & Hlt & Hw).
      destruct (Z.ltb_spec (10 * Z.of_nat i) (9 * Z.of_nat (length docs))); [|by destruct (_ <? _)].
      destruct (Z.ltb_spec (5 * Z.of_nat i) (4 * Z.of_nat (length docs))) as [H5|H5].
      * left. exists i, doc. split_and!; [done..|].
        by destruct (Z.ltb_spec (5 * Z.of_nat i) (4 * Z.of_nat (length docs))); [|lia].
      * right. exists i, doc. split_and!; [done..|].
        destruct (Z.ltb_spec (5 * Z.of_nat i) (4 * Z.of_nat (length docs))); [lia|].
        by destruct (Z.ltb_spec (10 * Z.of_nat i) (9 * Z.of_nat (length docs))); [|lia].
    + intros [H|H]; destruct H as (i & doc & Hi & Hs & Hlt & Hw);
        exists i, doc; (split_and!; [done..|]);
        destruct (Z.ltb_spec (5 * Z.of_nat i) (4 * Z.of_nat (length docs)));
        destruct (Z.ltb_spec (10 * Z.of_nat i) (9 * Z.of_nat (length docs)));
        try done; lia.
  - apply set_eq. intros s. rewrite elem_of_union.
    rewrite (Hin_ci Test), (Hin Dev), (Hin Test).
    unfold fraction_split, split_fractions, in_CI.
    rewrite (bool_decide_eq_true_2 _ Hci).
    rewrite bool_decide_eq_false_2 by (rewrite Hno; by intros [? ?]).
    cbn [fst snd]; cbv zeta. split.
    + intros (i & doc & Hi & Hs & Hlt & Hw).
      destruct (Z.ltb_spec (5 * Z.of_nat i) (4 * Z.of_nat (length docs))); [done|].
      destruct (Z.ltb_spec (10 * Z.of_nat i) (9 * Z.of_nat (length docs))); [done|].
      destruct (Z.ltb_spec (20 * Z.of_nat i) (19 * Z.of_nat (length docs))) as [H20|H20].
      * left. exists i, doc. split_and!; [done..|].
        destruct (Z.ltb_spec (10 * Z.of_nat i) (9 * Z.of_nat (length docs))); [lia|].
        by destruct (Z.ltb_spec (20 * Z.of_nat i) (19 * Z.of_nat (length docs))); [|lia].
      * right. exists i, doc. split_and!; [done..|].
        destruct (Z.ltb_spec (10 * Z.of_nat i) (9 * Z.of_nat (length docs))); [lia|].
        by destruct (Z.ltb_spec (20 * Z.of_nat i) (19 * Z.of_nat (length docs))); [lia|].
    + intros [H|H]; destruct H as (i & doc & Hi & Hs & Hlt & Hw);
        exists i, doc; (split_and!; [done..|]);
        destruct (Z.ltb_spec (5 * Z.of_nat i) (4 * Z.of_nat (length docs)));
        destruct (Z.ltb_spec (10 * Z.of_nat i) (9 * Z.of_nat (length docs)));
        destruct (Z.ltb_spec (20 * Z.of_nat i) (19 * Z.of_nat (length docs)));
        try done; lia.
Qed.

(** X12: the sets do not depend on the order of [doc.sentences] nor on a
    sentence being listed twice: documents that hold the same sentences, index
    by index, are split alike. *)
Theorem split_corpus_sentence_order (env : environ) (docs docs' : list Document) :
  Z.of_nat (length docs) ≤ PY_SSIZE_T_MAX →
  Forall2 (λ d d', ∀ s, s ∈ sentences d ↔ s ∈ sentences d') docs docs' →
  split_corpus env docs = split_corpus env docs'.
Proof.
  intros Hld Hsame. pose proof (Forall2_length _ _ _ Hsame) as Hlen.
  destruct (elem_of_split_corpus env docs Hld)
    as (t0 & t1 & st & H0 & H1 & -> & Hin).
  destruct (elem_of_split_corpus env docs')
    as (t0' & t1' & st' & H0' & H1' & -> & Hin'); [by rewrite <- Hlen|].
  rewrite <- Hlen, H0 in H0'. rewrite <- Hlen, H1 in H1'.
  injection H0' as <-. injection H1' as <-.
  f_equal. apply split_state_eq. intros w s. rewrite Hin, Hin'. split.
  - intros (i & d & Hi & Hs & Hrest).
    destruct (Forall2_lookup_l _ _ _ _ _ Hsame Hi) as (d' & Hi' & Hdd).
    exists i, d'. split_and!; [done|by apply Hdd|apply Hrest..].
  - intros (i & d' & Hi' & Hs & Hrest).
    destruct (Forall2_lookup_r _ _ _ _ _ Hsame Hi') as (d & Hi & Hdd).
    exists i, d. split_and!; [done|by apply Hdd|apply Hrest..].
Qed.

(** X13: removing from every document the sentences of five people or more
    before the loop changes nothing. *)
Theorem split_corpus_prefilter (env : environ) (docs : list Document) :
  Z.of_nat (length docs) ≤ PY_SSIZE_T_MAX →
  split_corpus env (keep_eligible <$> docs) = split_corpus env docs.
Proof.
  intros Hld.
  destruct (elem_of_split_corpus env docs Hld)
    as (t0 & t1 & st & H0 & H1 & -> & Hin).
  destruct (elem_of_split_corpus env (keep_eligible <$> docs))
    as (t0' & t1' & st' & H0' & H1' & -> & Hin'); [by rewrite length_fmap|].
  rewrite length_fmap in H0', H1'. rewrite H0 in H0'. rewrite H1 in H1'.
  injection H0' as <-. injection H1' as <-.
  f_equal. apply split_state_eq. intros w s. rewrite Hin, Hin'. split.
  - intros (i & d' & Hi & Hs & Hlt & Hw).
    rewrite list_lookup_fmap in Hi.
    destruct (docs !! i) as [d|] eqn:Hd; [|done]. injection Hi as <-.
    cbn [keep_eligible sentences] in Hs.
    apply list_elem_of_filter in Hs as [_ Hs]. eauto 10.
  - intros (i & d & Hi & Hs & Hlt & Hw).
    exists i, (keep_eligible d). rewrite list_lookup_fmap, Hi.
    split_and!; [done| |done..]. by apply list_elem_of_filter.
Qed.

Lemma for_each_never {A S} (e : exn) (body : S → A → outcome S) l st :
  (∀ st x, body st x ≠ Raised e) → for_each body l st ≠ Raised e.
Proof.
  intros Hbody. revert st. induction l as [|x l IH]; intros st; [done|].
  cbn [for_each]. specialize (Hbody st x).
  destruct (body st x); cbn; [apply IH|done].
Qed.

Lemma threshold_never_IndexError env k ld :
  (k < 2)%nat → threshold (splits_of env) k ld ≠ Raised IndexError.
Proof.
  intros Hk. unfold threshold, splits_of, float_mul_int, float_of_int.
  destruct (in_CI env), k as [|[|k]]; try lia; cbn;
    by destruct (_ <=? _).
Qed.

(** X14: whatever the number of documents, the loop never raises
    [IndexError]: [splits] has two entries in both settings and the loop reads
    [splits[0]] and [splits[1]] only. *)
Theorem split_corpus_never_IndexError (env : environ) (docs : list Document) :
  split_corpus env docs ≠ Raised IndexError.
Proof.
  apply for_each_never. intros st [i doc]. apply for_each_never.
  intros st' s. unfold split_sentence.
  pose proof (threshold_never_IndexError env 0 (Z.of_nat (length docs))) as H0.
  pose proof (threshold_never_IndexError env 1 (Z.of_nat (length docs))) as H1.
  destruct (_ <? 5); [|done].
  destruct (threshold _ 0 _) as [t0|e0]; cbn; [|intros [= ->]; apply H0; [lia|done]].
  destruct (int_lt_float _ t0); [done|].
  destruct (threshold _ 1 _) as [t1|e1]; cbn; [|intros [= ->]; apply H1; [lia|done]].
  by destruct (int_lt_float _ t1).
Qed.

(** * The further properties on the sample data *)

Lemma number_of_people_only_person_witness :
  is_person <$> ["PERSON"; "O"; "PERSON"]%string
    = is_person <$> ["PERSON"; "LOCATION"; "PERSON"]%string ∧
  number_of_people (example_sentence 1 ["PERSON"; "O"; "PERSON"]%string)
    = number_of_people
        (example_sentence 2 ["PERSON"; "LOCATION"; "PERSON"]%string).
Proof.
  split; [reflexivity|].
  apply number_of_people_only_person. reflexivity.
Defined.

Lemma example_docs_small : Z.of_nat (length example_docs) ≤ 2 ^ 48.
Proof. vm_compute. discriminate. Defined.

Lemma split_corpus_covers_witness :
  Z.of_nat (length example_docs) ≤ PY_SSIZE_T_MAX ∧
  ∃ st, split_corpus user_environ example_docs = Return st ∧
        example_sentence 4 ["PERSON"; "PERSON"]%string
          ∈ train_sents st ∪ dev_sents st ∪ test_sents st.
Proof.
  split; [exact example_docs_length|].
  destruct (split_corpus_covers user_environ example_docs example_docs_length)
    as (st & Hst & Hin).
  exists st. split; [exact Hst|]. apply Hin. split; [reflexivity|].
  exists {| name := "c";
            sentences := [example_sentence 4 ["PERSON"; "PERSON"]] |}%string.
  split; [|apply list_elem_of_here].
  apply list_elem_of_further, list_elem_of_further, list_elem_of_here.
Defined.

Lemma crowded_docs_crowded doc s :
  doc ∈ crowded_docs → s ∈ sentences doc → 5 ≤ number_of_people s.
Proof.
  intros Hdoc Hs. unfold crowded_docs in Hdoc.
  apply elem_of_cons in Hdoc as [->|Hdoc].
  - cbn [sentences] in Hs. apply elem_of_cons in Hs as [->|Hs].
    + vm_compute. discriminate.
    + by apply elem_of_nil in Hs.
  - apply elem_of_cons in Hdoc as [->|Hdoc].
    + by apply elem_of_nil in Hs.
    + by apply elem_of_nil in Hdoc.
Defined.

Lemma split_corpus_nothing_eligible_witness :
  split_corpus ci_environ crowded_docs = Return empty_split.
Proof.
  exact (split_corpus_nothing_eligible ci_environ crowded_docs
           crowded_docs_crowded).
Defined.

Lemma split_corpus_contiguous_witness :
  Z.of_nat (length example_docs) ≤ PY_SSIZE_T_MAX ∧
  ∃ st w w',
    split_corpus ci_environ example_docs = Return st ∧
    example_sentence 9 ["O"]%string ∈ split_set w st ∧
    example_sentence 10 ["O"; "PERSON"]%string ∈ split_set w' st ∧
    split_number w ≤ split_number w'.
Proof.
  split; [exact example_docs_length|].
  destruct (split_corpus_contiguous ci_environ example_docs example_docs_length)
    as (st & Hst & Hord).
  destruct (Hord 8%nat 9%nat
              {| name := "i"; sentences := [example_sentence 9 ["O"]] |}%string
              {| name := "j";
                 sentences := [example_sentence 10 ["O"; "PERSON"]] |}%string
              (example_sentence 9 ["O"]%string)
              (example_sentence 10 ["O"; "PERSON"]%string))
    as (w & w' & Hw & Hw' & Hle);
    [reflexivity|reflexivity|apply list_elem_of_here|apply list_elem_of_here
    |reflexivity|reflexivity|lia|].
  exists st, w, w'. split_and!; [exact Hst|exact Hw|exact Hw'|exact Hle].
Defined.

Lemma split_corpus_by_fraction_witness :
  Z.of_nat (length example_docs) ≤ 2 ^ 48 ∧
  ∃ st, split_corpus ci_environ example_docs = Return st ∧
        example_sentence 10 ["O"; "PERSON"]%string ∈ test_sents st.
Proof.
  split; [exact example_docs_small|].
  destruct (split_corpus_by_fraction ci_environ example_docs example_docs_small)
    as (st & Hst & Hin).
  exists st. split; [exact Hst|]. apply Hin.
  exists 9%nat, {| name := "j";
                   sentences := [example_sentence 10 ["O"; "PERSON"]] |}%string.
  split_and!; [reflexivity|apply list_elem_of_here|reflexivity
              |by vm_compute|by vm_compute].
Defined.

Lemma split_corpus_blocks_witness :
  Z.of_nat (length example_docs) ≤ 2 ^ 48 ∧
  split_corpus ci_environ example_docs =
    Return {| train_sents := eligible (take 8 example_docs);
              dev_sents := eligible (take 1 (drop 8 example_docs));
              test_sents := eligible (drop 9 example_docs) |}.
Proof.
  split; [exact example_docs_small|].
  exact (split_corpus_blocks ci_environ example_docs example_docs_small).
Defined.

Lemma split_corpus_small_witness :
  Z.of_nat (length three_docs) < (if in_CI ci_environ then 10 else 20) ∧
  ∃ st, split_corpus ci_environ three_docs = Return st ∧
        test_sents st = ∅ ∧ dev_sents st = ∅.
Proof.
  assert (Z.of_nat (length three_docs) < (if in_CI ci_environ then 10 else 20))
    as Hld by reflexivity.
  split; [exact Hld|].
  destruct (split_corpus_small ci_environ three_docs Hld)
    as (st & Hst & Htest & Hdev).
  exists st. split_and!; [exact Hst|exact Htest|].
  apply Hdev. reflexivity.
Defined.

Lemma split_corpus_CI_moves_witness :
  ∃ st_ci st,
    split_corpus ci_environ example_docs = Return st_ci ∧
    split_corpus user_environ example_docs = Return st ∧
    train_sents st = train_sents st_ci ∪ dev_sents st_ci ∧
    test_sents st_ci = dev_sents st ∪ test_sents st.
Proof.
  apply (split_corpus_CI_moves ci_environ user_environ example_docs
           example_docs_small).
  - unfold ci_environ. rewrite lookup_singleton_eq. by eexists.
  - unfold user_environ. by apply lookup_singleton_ne.
Defined.

Lemma reordered_docs_same_sentences :
  Forall2 (λ d d', ∀ s, s ∈ sentences d ↔ s ∈ sentences d')
          three_docs reordered_docs.
Proof.
  unfold three_docs, reordered_docs.
  repeat (apply Forall2_cons; split); [..|by apply Forall2_nil]; intros s;
    cbn [sentences]; rewrite ?elem_of_cons; tauto.
Defined.

Lemma split_corpus_sentence_order_witness :
  Z.of_nat (length three_docs) ≤ PY_SSIZE_T_MAX ∧
  split_corpus user_environ three_docs
  = split_corpus user_environ reordered_docs.
Proof.
  assert (Z.of_nat (length three_docs) ≤ PY_SSIZE_T_MAX) as Hld
    by (vm_compute; discriminate).
  split; [exact Hld|].
  exact (split_corpus_sentence_order user_environ three_docs reordered_docs
           Hld reordered_docs_same_sentences).
Defined.

Lemma split_corpus_prefilter_witness :
  Z.of_nat (length example_docs) ≤ PY_SSIZE_T_MAX ∧
  split_corpus user_environ (keep_eligible <$> example_docs)
  = split_corpus user_environ example_docs.
Proof.
  split; [exact example_docs_length|].
  exact (split_corpus_prefilter user_environ example_docs example_docs_length).
Defined.

(** The blocks of the sample documents, and a list of tags that reaches the
    bound of the count: five people in nine tags. *)
Example ceil_fraction_values :
  ceil_fraction (9, 10) 10 = 9%nat ∧ ceil_fraction (19, 20) 10 = 10%nat ∧
  ceil_fraction (4, 5) 10 = 8%nat ∧ ceil_fraction (9, 10) 2993 = 2694%nat ∧
  ceil_fraction (19, 20) 2993 = 2844%nat ∧ ceil_fraction (9, 10) 0 = 0%nat.
Proof. by vm_compute. Qed.
